(** * Suggestion lifecycle services of Oppia ([core/domain/suggestion_services.py])

    A shallow embedding of the lifecycle manager: creation, acceptance,
    rejection (single and batch) and resubmission of suggestions, together
    with the contribution-scoring update performed on acceptance.

    The datastore, the feedback threads, the outbound mail and the target
    content are components of an explicit [State]; a Python exception is a
    [Raise] result that keeps the state reached at the raise site, so that
    "fails before any mutation" is the equation [st' = st]. *)

From Stdlib Require Import ZArith Ascii String List Bool Lia.
From stdpp Require Import base option list gmap strings pretty.

Local Open Scope string_scope.
Local Open Scope list_scope.
Local Open Scope Z_scope.

(** ** Python strings *)

Module PyStr.

(** [str.isspace] on the code points below 256 (the characters a Rocq
    [ascii] can hold): TAB..CR, FS..US, SPACE, NEL and NBSP. *)
Definition isspace (c : ascii) : bool :=
  let n := N_of_ascii c in
  ((9 <=? n) && (n <=? 13) || (28 <=? n) && (n <=? 32)
   || (n =? 133) || (n =? 160))%N.

Fixpoint lstrip (s : string) : string :=
  match s with
  | EmptyString => EmptyString
  | String c rest => if isspace c then lstrip rest else s
  end.

Definition rstrip (s : string) : string :=
  String.rev (lstrip (String.rev s)).

(** [s.strip()] *)
Definition strip (s : string) : string := rstrip (lstrip s).

(** Truth value of a string: [not s] holds exactly for the empty one. *)
Definition truthy (s : string) : bool :=
  match s with EmptyString => false | String _ _ => true end.

(** Every character of [s] is whitespace (the empty string included). *)
Fixpoint only_whitespace (s : string) : bool :=
  match s with
  | EmptyString => true
  | String c rest => isspace c && only_whitespace rest
  end.

Fixpoint join (parts : list string) : string :=
  match parts with
  | [] => EmptyString
  | p :: rest => p +:+ join rest
  end.

End PyStr.

(** ** Data model *)

(** [suggestion_models.STATUS_*] *)
Inductive Status := STATUS_IN_REVIEW | STATUS_ACCEPTED | STATUS_REJECTED.

#[global] Instance Status_eq_dec : EqDecision Status.
Proof. solve_decision. Defined.

(** [feedback_models.STATUS_CHOICES_*] used by this module. *)
Inductive FeedbackStatus :=
  STATUS_CHOICES_OPEN | STATUS_CHOICES_FIXED | STATUS_CHOICES_IGNORED.

(** A change is a dict of string fields ([change['state_name']], ...). *)
Abbreviation Change := (gmap string string).

(** The suggestion domain object (an instance of one of the classes of
    [suggestion_registry]; [suggestion_type] is the class tag). *)
Record Suggestion := mkSuggestion {
  suggestion_id : string;
  suggestion_type : string;
  target_id : string;
  target_version_at_submission : Z;
  status : Status;
  author_id : string;
  final_reviewer_id : option string;
  change : Change;
  score_category : string;
  last_updated : option nat
}.

(** [GeneralSuggestionModel], the stored record. Its [id] is the key it is
    stored under: a model instance read from the store is the pair of that
    key and the record. *)
Record SuggestionModel := mkSuggestionModel {
  m_suggestion_type : string;
  m_target_type : string;
  m_target_id : string;
  m_target_version_at_submission : Z;
  m_status : Status;
  m_author_id : string;
  m_final_reviewer_id : option string;
  m_change_cmd : Change;
  m_score_category : string;
  m_last_updated : nat
}.

(** [user_domain.UserContributionScoring] *)
Record UserContributionScoring := mkScoring {
  user_id : string;
  us_score_category : string;
  score : Z;
  onboard_reviewer_email_sent : bool
}.

(** A feedback thread and a message posted to one. *)
Record Thread := mkThread {
  thread_id : string;
  th_entity_type : string;
  th_entity_id : string;
  th_author_id : string;
  th_subject : string;
  th_text : string;
  th_has_suggestion : bool
}.

Record Message := mkMessage {
  msg_thread_id : string;
  msg_author_id : string;
  msg_updated_status : FeedbackStatus;
  msg_updated_subject : option string;
  msg_text : string
}.

(** The target content: an exploration has a category and html content
    addressed by state name and content id. *)
Record Exploration := mkExploration {
  category : string;
  content_html_of : gmap (string * string) string
}.

(** The persisted world the services act on. *)
Record State := mkState {
  suggestion_store : gmap string SuggestionModel;
  batch_writes : list (list string);
  threads : list Thread;
  messages : list Message;
  explorations : gmap string Exploration;
  commits : list (string * Change * string);
  scoring_store : gmap (string * string) UserContributionScoring;
  emails : list (string * string);
  now : nat
}.

(** ** Exceptions *)

(** One constructor per raise site of the module, plus the interpreter's
    own errors and the errors of the collaborators. *)
Inductive exn :=
  | CommitMessageEmpty
  | AcceptDoesNotExist (id : string)
  | RejectDoesNotExist (id : string)
  | AlreadyHandledExn (id : string)
  | InvalidMathTags (id : string)
  | ReviewMessageEmpty
  | SummaryMessageEmpty
  | NotYetHandledExn (id : string)
  | WasAcceptedExn (id : string)
  | ContentHtmlMismatch
  | InvalidSuggestionTypeExn (ty : string)
  | NoneAttributeError (attr : string)
  | UnboundLocalError (name : string)
  | KeyError (key : string)
  | IndexError
  | EntityNotFound (id : string)
  | ValueError (what : string)
  | ValidationError (site : string).

#[global] Instance exn_eq_dec : EqDecision exn.
Proof. solve_decision. Defined.

(** The text of the exceptions the module raises itself. *)
Definition exn_message (e : exn) : option string :=
  match e with
  | CommitMessageEmpty => Some "Commit message cannot be empty."
  | AcceptDoesNotExist id =>
      Some ("You cannot accept the suggestion with id " +:+ id +:+
            " because it does not exist.")
  | RejectDoesNotExist id =>
      Some ("You cannot reject the suggestion with id " +:+ id +:+
            " because it does not exist.")
  | AlreadyHandledExn id =>
      Some ("The suggestion with id " +:+ id +:+
            " has already been accepted/rejected.")
  | InvalidMathTags id =>
      Some ("Invalid math tags found in the suggestion with id " +:+ id +:+ ".")
  | ReviewMessageEmpty => Some "Review message cannot be empty."
  | SummaryMessageEmpty => Some "Summary message cannot be empty."
  | NotYetHandledExn id =>
      Some ("The suggestion with id " +:+ id +:+ " is not yet handled.")
  | WasAcceptedExn id =>
      Some ("The suggestion with id " +:+ id +:+ " was accepted. " +:+
            "Only rejected suggestions can be resubmitted.")
  | ContentHtmlMismatch =>
      Some ("The given content_html does not match the content of the " +:+
            "exploration.")
  | InvalidSuggestionTypeExn ty => Some ("Invalid suggestion type " +:+ ty)
  | _ => None
  end.

(** Modelled from the spec: the error taxonomy of its section 7, which the
    module itself does not name (it raises plain [Exception]s). *)
Inductive ErrorKind :=
  | KValidationError
  | KNotFound
  | KAlreadyHandled
  | KPreconditionFailed
  | KContentPolicyViolation.

(** Modelled from the spec: which failure of the taxonomy each exception
    is. The interpreter's own errors ([AttributeError] on [None], an unbound
    local, a missing key or index) and the errors of the content service
    belong to none. *)
Definition error_kind (e : exn) : option ErrorKind :=
  match e with
  | CommitMessageEmpty | ReviewMessageEmpty | SummaryMessageEmpty
  | NotYetHandledExn _ | WasAcceptedExn _ => Some KPreconditionFailed
  | AcceptDoesNotExist _ | RejectDoesNotExist _ => Some KNotFound
  | AlreadyHandledExn _ => Some KAlreadyHandled
  | ContentHtmlMismatch | InvalidSuggestionTypeExn _
  | ValidationError _ => Some KValidationError
  | InvalidMathTags _ => Some KContentPolicyViolation
  | NoneAttributeError _ | UnboundLocalError _ | KeyError _ | IndexError
  | EntityNotFound _ | ValueError _ => None
  end.

(** ** The state-and-exception monad *)

Inductive result (A : Type) :=
  | Ok (a : A)
  | Raise (e : exn).
Arguments Ok {A} a.
Arguments Raise {A} e.

Definition is_ok {A} (r : result A) : bool :=
  match r with Ok _ => true | Raise _ => false end.

Definition M (A : Type) : Type := State -> result A * State.

#[global] Instance M_ret : MRet M := fun A a st => (Ok a, st).

#[global] Instance M_bind : MBind M := fun A B f m st =>
  match m st with
  | (Ok a, st') => f a st'
  | (Raise e, st') => (Raise e, st')
  end.

Definition raise {A} (e : exn) : M A := fun st => (Raise e, st).
Definition get_state : M State := fun st => (Ok st, st).
Definition put_state (st' : State) : M unit := fun _ => (Ok tt, st').
Definition lift {A} (r : result A) : M A := fun st => (r, st).

(** [for x in xs: body(x)] *)
Fixpoint for_each {A} (body : A -> M unit) (xs : list A) : M unit :=
  match xs with
  | [] => mret tt
  | x :: rest => body x ;; for_each body rest
  end.

(** ** State updates of the collaborating stores *)

Definition with_suggestions (f : gmap string SuggestionModel -> gmap string SuggestionModel)
    (ids : list string) (st : State) : State :=
  mkState (f (suggestion_store st)) (batch_writes st ++ [ids]) (threads st)
          (messages st) (explorations st) (commits st) (scoring_store st)
          (emails st) (now st).

Definition with_threads (f : list Thread -> list Thread) (st : State) : State :=
  mkState (suggestion_store st) (batch_writes st) (f (threads st))
          (messages st) (explorations st) (commits st) (scoring_store st)
          (emails st) (now st).

Definition with_messages (f : list Message -> list Message) (st : State) : State :=
  mkState (suggestion_store st) (batch_writes st) (threads st)
          (f (messages st)) (explorations st) (commits st) (scoring_store st)
          (emails st) (now st).

Definition with_commits (f : list (string * Change * string) -> list (string * Change * string))
    (st : State) : State :=
  mkState (suggestion_store st) (batch_writes st) (threads st)
          (messages st) (explorations st) (f (commits st)) (scoring_store st)
          (emails st) (now st).

Definition with_scoring
    (f : gmap (string * string) UserContributionScoring ->
         gmap (string * string) UserContributionScoring) (st : State) : State :=
  mkState (suggestion_store st) (batch_writes st) (threads st)
          (messages st) (explorations st) (commits st) (f (scoring_store st))
          (emails st) (now st).

Definition with_emails (f : list (string * string) -> list (string * string))
    (st : State) : State :=
  mkState (suggestion_store st) (batch_writes st) (threads st)
          (messages st) (explorations st) (commits st) (scoring_store st)
          (f (emails st)) (now st).

(** ** Constants and collaborators that live outside the module *)

(** The constants of [feconf] and of the storage models, and the behaviour
    of the collaborators the module calls but does not define: the entity
    validators of the suggestion classes, the markup validator, the identity
    service and the thread-id generator of the feedback service. *)
Record Env := mkEnv {
  SUGGESTION_TYPE_EDIT_STATE_CONTENT : string;
  SUGGESTION_TYPE_TRANSLATE_CONTENT : string;
  SUGGESTION_TYPE_ADD_QUESTION : string;
  TARGET_TYPE_EXPLORATION : string;
  SCORE_TYPE_CONTENT : string;
  SCORE_TYPE_TRANSLATION : string;
  SCORE_TYPE_QUESTION : string;
  SCORE_CATEGORY_DELIMITER : string;
  COMMIT_MESSAGE_ACCEPTED_SUGGESTION_PREFIX : string;
  ENABLE_RECORDING_OF_SCORES : bool;
  SEND_SUGGESTION_REVIEW_RELATED_EMAILS : bool;
  INCREMENT_SCORE_OF_AUTHOR_BY : Z;
  MINIMUM_SCORE_REQUIRED_TO_REVIEW : Z;
  (* suggestion.validate(): true when the entity is valid *)
  validate : Suggestion -> bool;
  (* suggestion.pre_accept_validate(), which may consult the target content *)
  pre_accept_validate : gmap string Exploration -> Suggestion -> bool;
  (* suggestion.pre_update_validate(change) *)
  pre_update_validate : Suggestion -> Change -> bool;
  (* suggestion.get_all_html_content_strings() *)
  get_all_html_content_strings : Suggestion -> list string;
  (* html_validation_service.validate_math_tags_in_html_with_attribute_math_content *)
  validate_math_tags_in_html_with_attribute_math_content : string -> list string;
  (* user_services.get_username *)
  get_username : string -> string;
  (* the id the feedback service gives to a new thread *)
  generate_thread_id : string -> string -> list Thread -> string
}.

Definition DEFAULT_SUGGESTION_THREAD_SUBJECT : string := "Suggestion from a user".
Definition DEFAULT_SUGGESTION_THREAD_INITIAL_MESSAGE : string := "".

(** ** Methods of the domain objects *)

(** Modelled from the spec: the [is_handled] property of the suggestion
    classes of [suggestion_registry], handled meaning that the status is no
    longer in-review. *)
Definition is_handled (s : Suggestion) : bool :=
  bool_decide (status s ≠ STATUS_IN_REVIEW).

Definition set_status (st : Status) (s : Suggestion) : Suggestion :=
  mkSuggestion (suggestion_id s) (suggestion_type s) (target_id s)
               (target_version_at_submission s) st (author_id s)
               (final_reviewer_id s) (change s) (score_category s)
               (last_updated s).

(** Modelled from the spec: the status setters of the suggestion classes
    (status becomes accepted, rejected, in-review). *)
Definition set_suggestion_status_to_accepted := set_status STATUS_ACCEPTED.
Definition set_suggestion_status_to_rejected := set_status STATUS_REJECTED.
Definition set_suggestion_status_to_in_review := set_status STATUS_IN_REVIEW.

(** Modelled from the spec: [set_final_reviewer_id] of the suggestion
    classes records the reviewer. *)
Definition set_final_reviewer_id (reviewer_id : string) (s : Suggestion) : Suggestion :=
  mkSuggestion (suggestion_id s) (suggestion_type s) (target_id s)
               (target_version_at_submission s) (status s) (author_id s)
               (Some reviewer_id) (change s) (score_category s)
               (last_updated s).

(** [suggestion.suggestion_id], for the functions that also have a
    parameter called [suggestion_id]. *)
Definition suggestion_id_of (s : Suggestion) : string := suggestion_id s.

(** [suggestion.change = change] *)
Definition set_change (c : Change) (s : Suggestion) : Suggestion :=
  mkSuggestion (suggestion_id s) (suggestion_type s) (target_id s)
               (target_version_at_submission s) (status s) (author_id s)
               (final_reviewer_id s) c (score_category s)
               (last_updated s).

(** Modelled from the spec: [increment(record, amount)] of the scoring
    entity, a pure in-memory update. *)
Definition increment_score (increment_by : Z) (u : UserContributionScoring)
    : UserContributionScoring :=
  mkScoring (user_id u) (us_score_category u) (score u + increment_by)
            (onboard_reviewer_email_sent u).

(** Modelled from the spec: [mark_onboarding_email_as_sent] of the scoring
    entity sets the sent-flag. *)
Definition mark_onboarding_email_as_sent (u : UserContributionScoring)
    : UserContributionScoring :=
  mkScoring (user_id u) (us_score_category u) (score u) true.

Section Services.

Variable env : Env.

(** Modelled from the spec: [is_eligible(record)] of the scoring entity,
    true iff the score has reached the minimum score required to review. *)
Definition can_user_review_category (u : UserContributionScoring) : bool :=
  MINIMUM_SCORE_REQUIRED_TO_REVIEW env <=? score u.

(** *** Collaborators acting on the state *)

(** Modelled from the spec: [open] of the discussion thread service
    ([feedback_services.create_thread]), which stores a new thread and
    returns its id. *)
Definition create_thread (entity_type entity_id original_author_id
                          subject text : string) (has_suggestion : bool)
    : M string := fun st =>
  let tid := generate_thread_id env entity_type entity_id (threads st) in
  (Ok tid,
   with_threads (fun ts => ts ++ [mkThread tid entity_type entity_id
                  original_author_id subject text has_suggestion]) st).

(** Modelled from the spec: [post_message] of the discussion thread
    service ([feedback_services.create_message]). *)
Definition create_message (thread_id author_id : string)
    (updated_status : FeedbackStatus) (updated_subject : option string)
    (text : string) : M unit := fun st =>
  (Ok tt, with_messages (fun ms => ms ++ [mkMessage thread_id author_id
                           updated_status updated_subject text]) st).

(** Modelled from the spec: [post_messages] of the discussion thread
    service ([feedback_services.create_messages]), one message per thread. *)
Definition create_messages (thread_ids : list string) (author_id : string)
    (updated_status : FeedbackStatus) (updated_subject : option string)
    (text : string) : M unit := fun st =>
  (Ok tt, with_messages (fun ms => ms ++
            ((fun tid => mkMessage tid author_id updated_status
                           updated_subject text) <$> thread_ids)) st).

(** Modelled from the spec: [fetch] of the target content service
    ([exp_fetchers.get_exploration_by_id]); a missing exploration is an
    error of that service. *)
Definition get_exploration_by_id (exp_id : string) : M Exploration := fun st =>
  match explorations st !! exp_id with
  | Some e => (Ok e, st)
  | None => (Raise (EntityNotFound exp_id), st)
  end.

(** Modelled from the spec: the addressable sub-fields of the fetched
    content ([exploration.get_content_html]). *)
Definition get_content_html (e : Exploration) (state_name content_id : string)
    : result string :=
  match content_html_of e !! (state_name, content_id) with
  | Some html => Ok html
  | None => Raise (ValueError "content")
  end.

(** Modelled from the spec: [suggestion.accept(commit_message)] hands the
    change and the commit message to the target-content collaborator. *)
Definition accept (s : Suggestion) (commit_message : string) : M unit := fun st =>
  (Ok tt, with_commits (fun cs => cs ++ [(target_id s, change s, commit_message)]) st).

(** Modelled from the spec: [notify_new_reviewer_eligible] of the
    notification service ([email_manager.send_mail_to_onboard_new_reviewers]). *)
Definition send_mail_to_onboard_new_reviewers (user_id score_category : string)
    : M unit := fun st =>
  (Ok tt, with_emails (fun es => es ++ [(user_id, score_category)]) st).

(** [change[key]] *)
Definition getitem (c : Change) (key : string) : result string :=
  match c !! key with
  | Some v => Ok v
  | None => Raise (KeyError key)
  end.

(** Reading a local variable that may not have been assigned. *)
Definition local {A} (name : string) (v : option A) : result A :=
  match v with
  | Some a => Ok a
  | None => Raise (UnboundLocalError name)
  end.

(** [suggestion.validate()] and its two siblings raise on failure. *)
Definition run_validate (s : Suggestion) : result unit :=
  if validate env s then Ok tt else Raise (ValidationError "validate").

(** *** The store adapter ([GeneralSuggestionModel]) *)

Definition fetch (store : gmap string SuggestionModel) (id : string)
    : option (string * SuggestionModel) :=
  match store !! id with
  | Some m => Some (id, m)
  | None => None
  end.

Definition get_by_id (suggestion_id : string)
    : M (option (string * SuggestionModel)) :=
  fun st => (Ok (fetch (suggestion_store st) suggestion_id), st).

Definition get_multi (suggestion_ids : list string)
    : M (list (option (string * SuggestionModel))) :=
  fun st => (Ok (map (fetch (suggestion_store st)) suggestion_ids), st).

Definition stamp (update_last_updated_time : bool) (t : nat)
    (m : SuggestionModel) : SuggestionModel :=
  if update_last_updated_time then
    mkSuggestionModel (m_suggestion_type m) (m_target_type m)
      (m_target_id m) (m_target_version_at_submission m) (m_status m)
      (m_author_id m) (m_final_reviewer_id m) (m_change_cmd m)
      (m_score_category m) t
  else m.

Definition put_all (ms : list (string * SuggestionModel))
    (store : gmap string SuggestionModel) : gmap string SuggestionModel :=
  foldl (fun acc im => <[fst im := snd im]> acc) store ms.

(** [put_multi]: one batch write of all the given models. *)
Definition put_multi (ms : list (string * SuggestionModel))
    (update_last_updated_time : bool) : M unit := fun st =>
  (Ok tt,
   with_suggestions
     (put_all (map (fun im => (fst im,
                     stamp update_last_updated_time (now st) (snd im))) ms))
     (map fst ms) st).

(** [GeneralSuggestionModel.create]: persists a new record. *)
Definition model_create (suggestion_type target_type target_id : string)
    (target_version_at_submission : Z) (status : Status)
    (author_id : string) (final_reviewer_id : option string)
    (change_cmd : Change) (score_category thread_id : string) : M unit :=
  fun st =>
  (Ok tt,
   with_suggestions
     (insert thread_id
        (mkSuggestionModel suggestion_type target_type target_id
           target_version_at_submission status author_id final_reviewer_id
           change_cmd score_category (now st)))
     [thread_id] st).

(** *** The services of the module *)

(** [get_suggestion_from_model]: the nine constructor arguments, the class
    being the stored [suggestion_type]. *)
Definition get_suggestion_from_model (im : string * SuggestionModel)
    : Suggestion :=
  let m := snd im in
  mkSuggestion (fst im) (m_suggestion_type m) (m_target_id m)
    (m_target_version_at_submission m) (m_status m) (m_author_id m)
    (m_final_reviewer_id m) (m_change_cmd m) (m_score_category m)
    (Some (m_last_updated m)).

Definition get_suggestion_by_id (suggestion_id : string)
    : M (option Suggestion) :=
  model ← get_by_id suggestion_id;
  mret (option_map get_suggestion_from_model model).

Definition get_suggestions_by_ids (suggestion_ids : list string)
    : M (list (option Suggestion)) :=
  general_suggestion_models ← get_multi suggestion_ids;
  mret (map (option_map get_suggestion_from_model)
             general_suggestion_models).

(** [create_suggestion]. The local [exploration] is bound only when the
    target is an exploration; the lookup of the domain class in the registry
    is the tag [suggestion_type] of the domain object (after the [else:
    raise] the type is one of the three registered ones). *)
Definition create_suggestion (suggestion_type target_type target_id : string)
    (target_version_at_submission : Z) (author_id : string)
    (change : Change) (description : option string)
    : M (option Suggestion) :=
  let description := default DEFAULT_SUGGESTION_THREAD_SUBJECT description in
  thread_id ← create_thread target_type target_id author_id description
                DEFAULT_SUGGESTION_THREAD_INITIAL_MESSAGE true;
  let status := STATUS_IN_REVIEW in
  exploration ←
    (if decide (target_type = TARGET_TYPE_EXPLORATION env)
     then e ← get_exploration_by_id target_id; mret (Some e)
     else mret None);
  score_category ←
    (if decide (suggestion_type = SUGGESTION_TYPE_EDIT_STATE_CONTENT env) then
       e ← lift (local "exploration" exploration);
       mret (SCORE_TYPE_CONTENT env +:+ SCORE_CATEGORY_DELIMITER env
             +:+ category e)
     else if decide (suggestion_type = SUGGESTION_TYPE_TRANSLATE_CONTENT env) then
       e ← lift (local "exploration" exploration);
       let score_category :=
         SCORE_TYPE_TRANSLATION env +:+ SCORE_CATEGORY_DELIMITER env
         +:+ category e in
       state_name ← lift (getitem change "state_name");
       content_id ← lift (getitem change "content_id");
       content_html ← lift (get_content_html e state_name content_id);
       given_html ← lift (getitem change "content_html");
       if decide (content_html ≠ given_html)
       then raise ContentHtmlMismatch
       else mret score_category
     else if decide (suggestion_type = SUGGESTION_TYPE_ADD_QUESTION env) then
       mret (SCORE_TYPE_QUESTION env +:+ SCORE_CATEGORY_DELIMITER env
             +:+ target_id)
     else raise (InvalidSuggestionTypeExn suggestion_type));
  let suggestion :=
    mkSuggestion thread_id suggestion_type target_id
      target_version_at_submission status author_id None change
      score_category None in
  lift (run_validate suggestion);;
  model_create suggestion_type target_type target_id
    target_version_at_submission status author_id None change
    score_category thread_id;;
  get_suggestion_by_id thread_id.

(** The first loop of [_update_suggestions]: validate each suggestion and
    collect its id. *)
Fixpoint validate_all (suggestions : list Suggestion) : result (list string) :=
  match suggestions with
  | [] => Ok []
  | suggestion :: rest =>
      match run_validate suggestion with
      | Raise e => Raise e
      | Ok _ =>
          match validate_all rest with
          | Raise e => Raise e
          | Ok ids => Ok (suggestion_id suggestion :: ids)
          end
      end
  end.

Definition copy_fields (suggestion : Suggestion)
    (im : string * SuggestionModel) : string * SuggestionModel :=
  let m := snd im in
  (fst im,
   mkSuggestionModel (m_suggestion_type m) (m_target_type m)
     (m_target_id m) (m_target_version_at_submission m) (status suggestion)
     (m_author_id m) (final_reviewer_id suggestion) (change suggestion)
     (score_category suggestion) (m_last_updated m)).

(** The second loop of [_update_suggestions]:
    [for index, suggestion_model in enumerate(suggestion_models_to_update)]. *)
Fixpoint copy_all (suggestions : list Suggestion) (index : nat)
    (models : list (option (string * SuggestionModel)))
    : result (list (string * SuggestionModel)) :=
  match models with
  | [] => Ok []
  | suggestion_model :: rest =>
      match suggestions !! index with
      | None => Raise IndexError
      | Some suggestion =>
          match suggestion_model with
          | None => Raise (NoneAttributeError "status")
          | Some m =>
              match copy_all suggestions (S index) rest with
              | Raise e => Raise e
              | Ok ms => Ok (copy_fields suggestion m :: ms)
              end
          end
      end
  end.

Definition _update_suggestions (suggestions : list Suggestion)
    (update_last_updated_time : bool) : M unit :=
  suggestion_ids ← lift (validate_all suggestions);
  suggestion_models_to_update ← get_multi suggestion_ids;
  updated ← lift (copy_all suggestions 0 suggestion_models_to_update);
  put_multi updated update_last_updated_time.

Definition _update_suggestion (suggestion : Suggestion) : M unit :=
  _update_suggestions [suggestion] true.

Definition get_commit_message_for_suggestion (author_username commit_message : string)
    : string :=
  COMMIT_MESSAGE_ACCEPTED_SUGGESTION_PREFIX env +:+ " " +:+ author_username
  +:+ ": " +:+ commit_message.

Definition get_user_scoring_from_model (m : UserContributionScoring)
    : UserContributionScoring :=
  mkScoring (user_id m) (us_score_category m) (score m)
            (onboard_reviewer_email_sent m).

Definition get_user_scoring (user_id score_category : string)
    : M UserContributionScoring := fun st =>
  match scoring_store st !! (user_id, score_category) with
  | Some user_scoring_model =>
      (Ok (get_user_scoring_from_model user_scoring_model), st)
  | None => (Ok (mkScoring user_id score_category 0 false), st)
  end.

(** Both branches of [_update_user_scoring] leave the record of the
    pair (user, category) holding the fields of the domain object: the
    existing model is overwritten field by field and put, or a new one is
    created. *)
Definition _update_user_scoring (user_scoring : UserContributionScoring)
    : M unit := fun st =>
  let key := (user_id user_scoring, us_score_category user_scoring) in
  match scoring_store st !! key with
  | Some _ =>
      (Ok tt,
       with_scoring (insert key
          (mkScoring (user_id user_scoring) (us_score_category user_scoring)
             (score user_scoring) (onboard_reviewer_email_sent user_scoring)))
          st)
  | None =>
      (Ok tt,
       with_scoring (insert key
          (mkScoring (user_id user_scoring) (us_score_category user_scoring)
             (score user_scoring) (onboard_reviewer_email_sent user_scoring)))
          st)
  end.

(** [accept_suggestion]. The guards come in the order of the source: commit
    message, existence, handled, pre-accept validation, math tags; then the
    two setters, the hand-over of the change, the update of the stored
    suggestion, the thread message and the scoring of the author. *)
Definition accept_suggestion (suggestion_id reviewer_id commit_message
                              review_message : string) : M unit :=
  if negb (PyStr.truthy commit_message)
     || negb (PyStr.truthy (PyStr.strip commit_message))
  then raise CommitMessageEmpty
  else
    suggestion ← get_suggestion_by_id suggestion_id;
    match suggestion with
    | None => raise (AcceptDoesNotExist suggestion_id)
    | Some suggestion =>
        if is_handled suggestion
        then raise (AlreadyHandledExn suggestion_id)
        else
          st ← get_state;
          (if pre_accept_validate env (explorations st) suggestion
           then mret tt
           else raise (ValidationError "pre_accept_validate"));;
          let html_string :=
            PyStr.join (get_all_html_content_strings env suggestion) in
          let error_list :=
            validate_math_tags_in_html_with_attribute_math_content env
              html_string in
          if bool_decide (0 < length error_list)%nat
          then raise (InvalidMathTags (suggestion_id_of suggestion))
          else
            let suggestion := set_suggestion_status_to_accepted suggestion in
            let suggestion := set_final_reviewer_id reviewer_id suggestion in
            let author_name := get_username env (author_id suggestion) in
            let commit_message :=
              get_commit_message_for_suggestion author_name commit_message in
            accept suggestion commit_message;;
            _update_suggestion suggestion;;
            create_message suggestion_id reviewer_id STATUS_CHOICES_FIXED
              None review_message;;
            if ENABLE_RECORDING_OF_SCORES env then
              let user_id := author_id suggestion in
              let score_category := score_category suggestion in
              user_scoring ← get_user_scoring user_id score_category;
              let user_scoring :=
                increment_score (INCREMENT_SCORE_OF_AUTHOR_BY env)
                  user_scoring in
              user_scoring ←
                (if SEND_SUGGESTION_REVIEW_RELATED_EMAILS env then
                   if can_user_review_category user_scoring
                      && negb (onboard_reviewer_email_sent user_scoring)
                   then
                     send_mail_to_onboard_new_reviewers user_id
                       score_category;;
                     mret (mark_onboarding_email_as_sent user_scoring)
                   else mret user_scoring
                 else mret user_scoring);
              _update_user_scoring user_scoring
            else mret tt
    end.

(** The validation loop of [reject_suggestions]:
    [for index, suggestion in enumerate(suggestions)]. *)
Fixpoint reject_check (suggestion_ids : list string) (index : nat)
    (suggestions : list (option Suggestion)) : result unit :=
  match suggestions with
  | [] => Ok tt
  | suggestion :: rest =>
      match suggestion with
      | None =>
          match suggestion_ids !! index with
          | Some id => Raise (RejectDoesNotExist id)
          | None => Raise IndexError
          end
      | Some suggestion =>
          if is_handled suggestion
          then Raise (AlreadyHandledExn (suggestion_id suggestion))
          else reject_check suggestion_ids (S index) rest
      end
  end.

(** The mutation loop of [reject_suggestions]. *)
Fixpoint reject_each (reviewer_id : string)
    (suggestions : list (option Suggestion)) : result (list Suggestion) :=
  match suggestions with
  | [] => Ok []
  | None :: _ => Raise (NoneAttributeError "set_suggestion_status_to_rejected")
  | Some suggestion :: rest =>
      match reject_each reviewer_id rest with
      | Raise e => Raise e
      | Ok done =>
          Ok (set_final_reviewer_id reviewer_id
                (set_suggestion_status_to_rejected suggestion) :: done)
      end
  end.

(** [reject_suggestions]: the whole batch is checked, then the review
    message, then every suggestion is mutated and the batch is written. *)
Definition reject_suggestions (suggestion_ids : list string)
    (reviewer_id review_message : string) : M unit :=
  suggestions ← get_suggestions_by_ids suggestion_ids;
  lift (reject_check suggestion_ids 0 suggestions);;
  if negb (PyStr.truthy review_message)
  then raise ReviewMessageEmpty
  else
    suggestions ← lift (reject_each reviewer_id suggestions);
    _update_suggestions suggestions true;;
    create_messages suggestion_ids reviewer_id STATUS_CHOICES_IGNORED None
      review_message.

Definition reject_suggestion (suggestion_id reviewer_id review_message : string)
    : M unit :=
  reject_suggestions [suggestion_id] reviewer_id review_message.

(** [resubmit_rejected_suggestion]. The suggestion is fetched and used
    without a test for [None]: on a missing id, [suggestion.is_handled] is
    an attribute access on [None]. *)
Definition resubmit_rejected_suggestion (suggestion_id summary_message
    author_id : string) (change : Change) : M unit :=
  suggestion ← get_suggestion_by_id suggestion_id;
  if negb (PyStr.truthy summary_message)
  then raise SummaryMessageEmpty
  else
    match suggestion with
    | None => raise (NoneAttributeError "is_handled")
    | Some suggestion =>
        if negb (is_handled suggestion)
        then raise (NotYetHandledExn suggestion_id)
        else if decide (status suggestion = STATUS_ACCEPTED)
        then raise (WasAcceptedExn suggestion_id)
        else
          (if pre_update_validate env suggestion change
           then mret tt
           else raise (ValidationError "pre_update_validate"));;
          let suggestion := set_change change suggestion in
          let suggestion := set_suggestion_status_to_in_review suggestion in
          _update_suggestion suggestion;;
          create_message suggestion_id author_id STATUS_CHOICES_OPEN None
            summary_message
    end.

(** *** Sequences of lifecycle operations *)

Inductive Op :=
  | OpCreate (suggestion_type target_type target_id : string)
             (target_version_at_submission : Z) (author_id : string)
             (change : Change) (description : option string)
  | OpAccept (suggestion_id reviewer_id commit_message review_message : string)
  | OpReject (suggestion_id reviewer_id review_message : string)
  | OpRejectMany (suggestion_ids : list string)
                 (reviewer_id review_message : string)
  | OpResubmit (suggestion_id summary_message author_id : string)
               (change : Change).

(** The state a call leaves behind, whether it returns or raises. *)
Definition run_op (o : Op) (st : State) : State :=
  match o with
  | OpCreate ty tty tid v a c d => snd (create_suggestion ty tty tid v a c d st)
  | OpAccept id r cm rm => snd (accept_suggestion id r cm rm st)
  | OpReject id r rm => snd (reject_suggestion id r rm st)
  | OpRejectMany ids r rm => snd (reject_suggestions ids r rm st)
  | OpResubmit id sm a c => snd (resubmit_rejected_suggestion id sm a c st)
  end.

Definition run_ops (ops : list Op) (st : State) : State :=
  foldl (fun s o => run_op o s) st ops.

End Services.

(** ** The services around the lifecycle *)

(** The constants and the queries of the storage layer that the remaining
    services use and the module does not define. A query sees the stored
    suggestions and answers with model instances (or their ids). *)
Record StoreQueries := mkStoreQueries {
  SUGGESTION_BOT_USER_ID : string;
  DELETED_SKILL_REJECT_MESSAGE : string;
  INVALID_STORY_REJECT_TRANSLATION_SUGGESTIONS_MSG : string;
  (* GeneralSuggestionModel.query_suggestions *)
  model_query_suggestions :
    list (string * string) -> gmap string SuggestionModel ->
    list (string * SuggestionModel);
  (* GeneralSuggestionModel.get_translation_suggestion_ids_with_exp_ids *)
  model_get_translation_suggestion_ids_with_exp_ids :
    list string -> gmap string SuggestionModel -> list string
}.

Section AroundServices.

Variable env : Env.
Variable db : StoreQueries.

Definition query_suggestions (query_fields_and_values : list (string * string))
    : M (list Suggestion) := fun st =>
  (Ok (map get_suggestion_from_model
         (model_query_suggestions db query_fields_and_values
            (suggestion_store st))), st).

Definition get_translation_suggestion_ids_with_exp_ids (exp_ids : list string)
    : M (list string) :=
  if bool_decide (length exp_ids = 0%nat)
  then mret []
  else fun st =>
    (Ok (model_get_translation_suggestion_ids_with_exp_ids db exp_ids
           (suggestion_store st)), st).

Definition auto_reject_question_suggestions_for_skill_id (skill_id : string)
    : M unit :=
  suggestions ← query_suggestions
                  [ ("suggestion_type", SUGGESTION_TYPE_ADD_QUESTION env);
                    ("target_id", skill_id) ];
  let suggestion_ids := map suggestion_id suggestions in
  reject_suggestions env suggestion_ids (SUGGESTION_BOT_USER_ID db)
    (DELETED_SKILL_REJECT_MESSAGE db).

Definition auto_reject_translation_suggestions_for_exp_ids
    (exp_ids : list string) : M unit :=
  suggestion_ids ← get_translation_suggestion_ids_with_exp_ids exp_ids;
  reject_suggestions env suggestion_ids (SUGGESTION_BOT_USER_ID db)
    (INVALID_STORY_REJECT_TRANSLATION_SUGGESTIONS_MSG db).

(** [check_can_resubmit_suggestion]: the suggestion is used without a test
    for [None]. *)
Definition check_can_resubmit_suggestion (suggestion_id user_id : string)
    : M bool :=
  suggestion ← get_suggestion_by_id suggestion_id;
  match suggestion with
  | None => raise (NoneAttributeError "author_id")
  | Some suggestion => mret (bool_decide (author_id suggestion = user_id))
  end.

End AroundServices.

(** ** A concrete deployment, used to run the services on examples *)

Module Example.

(** The constants have the values of the Oppia code base; every validator
    accepts, the markup validator finds nothing, and a user's display name
    is the user id. Two accepted suggestions make a reviewer. *)
Definition env0 : Env :=
  {| SUGGESTION_TYPE_EDIT_STATE_CONTENT := "edit_exploration_state_content";
     SUGGESTION_TYPE_TRANSLATE_CONTENT := "translate_content";
     SUGGESTION_TYPE_ADD_QUESTION := "add_question";
     TARGET_TYPE_EXPLORATION := "exploration";
     SCORE_TYPE_CONTENT := "content";
     SCORE_TYPE_TRANSLATION := "translation";
     SCORE_TYPE_QUESTION := "question";
     SCORE_CATEGORY_DELIMITER := ".";
     COMMIT_MESSAGE_ACCEPTED_SUGGESTION_PREFIX := "Accepted suggestion by";
     ENABLE_RECORDING_OF_SCORES := true;
     SEND_SUGGESTION_REVIEW_RELATED_EMAILS := true;
     INCREMENT_SCORE_OF_AUTHOR_BY := 1;
     MINIMUM_SCORE_REQUIRED_TO_REVIEW := 2;
     validate := fun _ => true;
     pre_accept_validate := fun _ _ => true;
     pre_update_validate := fun _ _ => true;
     get_all_html_content_strings := fun _ => [];
     validate_math_tags_in_html_with_attribute_math_content := fun _ => [];
     get_username := fun uid => uid;
     generate_thread_id := fun ty id ts =>
       ty +:+ "." +:+ id +:+ "." +:+ pretty (length ts) |}.

(** Exploration [E]: state "Intro", content id "c1", html "<p>Hi</p>". *)
Definition exp_E : Exploration :=
  mkExploration "Algebra" {[ ("Intro", "c1") := "<p>Hi</p>" ]}.

Definition st0 : State :=
  mkState ∅ [] [] [] {[ "E" := exp_E ]} [] ∅ [] 0%nat.

Definition change_hi : Change :=
  {[ "state_name" := "Intro"; "content_id" := "c1";
     "content_html" := "<p>Hi</p>" ]}.

Definition change_bye : Change :=
  {[ "state_name" := "Intro"; "content_id" := "c1";
     "content_html" := "<p>Bye</p>" ]}.

Definition create_translation (c : Change) : Op :=
  OpCreate "translate_content" "exploration" "E" 1 "alice" c None.

Definition create_question (skill : string) : Op :=
  OpCreate "add_question" "skill" skill 1 "alice" ∅ None.

(** The ids the feedback service hands out in [st0]. *)
Definition id0 : string := "exploration.E.0".
Definition q0 : string := "skill.S.0".
Definition q1 : string := "skill.S.1".
Definition q2 : string := "skill.S.2".

(** One translation suggestion in review. *)
Definition st_in_review : State := run_op env0 (create_translation change_hi) st0.

(** The same suggestion after bob rejected it. *)
Definition st_rejected : State :=
  run_op env0 (OpReject id0 "bob" "not yet") st_in_review.

(** The same suggestion after bob accepted it. *)
Definition st_accepted : State :=
  run_op env0 (OpAccept id0 "bob" "apply translation" "thanks") st_in_review.

(** The stored record of that suggestion with the given status and
    final reviewer. *)
Definition model_with (st : Status) (reviewer : option string)
    : SuggestionModel :=
  mkSuggestionModel "translate_content" "exploration" "E" 1 st "alice"
    reviewer change_hi "translation.Algebra" 0%nat.

(** Create, reject, resubmit: the life of a suggestion that is sent back. *)
Definition resubmit_sequence : list Op :=
  [ create_translation change_hi;
    OpReject id0 "bob" "not yet";
    OpResubmit id0 "second try" "alice" change_hi ].

(** Three question suggestions of alice for skill [S], all accepted. *)
Definition three_accepts : list Op :=
  [ create_question "S"; create_question "S"; create_question "S";
    OpAccept q0 "bob" "add q0" "ok";
    OpAccept q1 "bob" "add q1" "ok";
    OpAccept q2 "bob" "add q2" "ok" ].

End Example.

(** A storage layer for the examples: the bot and its messages as in the
    Oppia code base, a field-equality query on the two fields the module
    queries by, and the translation suggestions of the given explorations. *)
Module ExampleStore.

Definition field_matches (fv : string * string) (m : SuggestionModel) : bool :=
  if decide (fst fv = "suggestion_type")
  then bool_decide (m_suggestion_type m = snd fv)
  else if decide (fst fv = "target_id")
  then bool_decide (m_target_id m = snd fv)
  else false.

Definition db0 : StoreQueries :=
  {| SUGGESTION_BOT_USER_ID := "OppiaSuggestionBot";
     DELETED_SKILL_REJECT_MESSAGE := "The associated skill no longer exists.";
     INVALID_STORY_REJECT_TRANSLATION_SUGGESTIONS_MSG :=
       "This text snippet has been removed from the story.";
     model_query_suggestions := fun qs store =>
       List.filter (fun im => forallb (fun fv => field_matches fv (snd im)) qs)
                   (map_to_list store);
     model_get_translation_suggestion_ids_with_exp_ids := fun exp_ids store =>
       map fst
         (List.filter
            (fun im =>
               bool_decide (m_suggestion_type (snd im) = "translate_content")
               && bool_decide (m_target_id (snd im) ∈ exp_ids))
            (map_to_list store)) |}.

(** The deployment of the examples with a pre-accept validation that
    refuses every suggestion. *)
Definition env_refusing : Env :=
  {| SUGGESTION_TYPE_EDIT_STATE_CONTENT := "edit_exploration_state_content";
     SUGGESTION_TYPE_TRANSLATE_CONTENT := "translate_content";
     SUGGESTION_TYPE_ADD_QUESTION := "add_question";
     TARGET_TYPE_EXPLORATION := "exploration";
     SCORE_TYPE_CONTENT := "content";
     SCORE_TYPE_TRANSLATION := "translation";
     SCORE_TYPE_QUESTION := "question";
     SCORE_CATEGORY_DELIMITER := ".";
     COMMIT_MESSAGE_ACCEPTED_SUGGESTION_PREFIX := "Accepted suggestion by";
     ENABLE_RECORDING_OF_SCORES := true;
     SEND_SUGGESTION_REVIEW_RELATED_EMAILS := true;
     INCREMENT_SCORE_OF_AUTHOR_BY := 1;
     MINIMUM_SCORE_REQUIRED_TO_REVIEW := 2;
     validate := fun _ => true;
     pre_accept_validate := fun _ _ => false;
     pre_update_validate := fun _ _ => true;
     get_all_html_content_strings := fun _ => [];
     validate_math_tags_in_html_with_attribute_math_content := fun _ => [];
     get_username := fun uid => uid;
     generate_thread_id := fun ty id ts =>
       ty +:+ "." +:+ id +:+ "." +:+ pretty (length ts) |}.

(** The stored record of a question suggestion of alice for skill [S]. *)
Definition question_with (st : Status) (reviewer : option string)
    : SuggestionModel :=
  mkSuggestionModel "add_question" "skill" "S" 1 st "alice" reviewer ∅
    "question.S" 0%nat.

(** A suggestion whose id is stored nowhere. *)
Definition stray : Suggestion :=
  mkSuggestion "nowhere" "add_question" "S" 1 STATUS_IN_REVIEW "alice" None ∅
    "question.S" None.

(** Two question suggestions for skill [S]; the first one then accepted. *)
Definition st_two_questions : State :=
  run_ops Example.env0
    [ Example.create_question "S"; Example.create_question "S" ] Example.st0.

Definition st_one_accepted : State :=
  run_op Example.env0 (OpAccept Example.q0 "bob" "add q0" "ok") st_two_questions.

End ExampleStore.

(** ** Specification vocabulary *)

(** The stored model [im] is what [_update_suggestions] writes for the
    suggestion [s]: the model found under the suggestion's id, with the
    four copied fields taken from [s]. *)
Definition written (store : gmap string SuggestionModel) (s : Suggestion)
    (im : string * SuggestionModel) : Prop :=
  exists m, store !! suggestion_id s = Some m /\
            im = copy_fields s (suggestion_id s, m).

(** The state [_update_suggestions] leaves when it returns: one batch
    write of the models [l]. *)
Definition updated (l : list (string * SuggestionModel))
    (update_last_updated_time : bool) (st : State) : State :=
  with_suggestions
    (put_all (map (fun im => (fst im,
                    stamp update_last_updated_time (now st) (snd im))) l))
    (map fst l) st.

(** The suggestion with id [id] is stored and still in review. *)
Definition unhandled_in (st : State) (id : string) : Prop :=
  exists m, suggestion_store st !! id = Some m /\ m_status m = STATUS_IN_REVIEW.

(** The exception [e] reports that [id] is absent from the store, or that
    it is stored and already handled. *)
Definition offends (st : State) (id : string) (e : exn) : Prop :=
  (suggestion_store st !! id = None /\ e = RejectDoesNotExist id) \/
  (exists m, suggestion_store st !! id = Some m /\
             m_status m <> STATUS_IN_REVIEW /\ e = AlreadyHandledExn id).

(** What [get_suggestions_by_ids] returns. *)
Definition stored_suggestions (st : State) (ids : list string)
    : list (option Suggestion) :=
  map (option_map get_suggestion_from_model)
      (map (fetch (suggestion_store st)) ids).

(** The domain object of a stored model after the two setters of a
    rejection. *)
Definition rejected_by (reviewer_id : string) (im : string * SuggestionModel)
    : Suggestion :=
  set_final_reviewer_id reviewer_id
    (set_suggestion_status_to_rejected (get_suggestion_from_model im)).

(** The thread [create_suggestion] asks the feedback service to open. *)
Definition opened_thread (env : Env) (target_type target_id author_id : string)
    (description : option string) (existing : list Thread) : Thread :=
  mkThread (generate_thread_id env target_type target_id existing)
    target_type target_id author_id
    (default DEFAULT_SUGGESTION_THREAD_SUBJECT description)
    DEFAULT_SUGGESTION_THREAD_INITIAL_MESSAGE true.

(** A handled suggestion has a final reviewer. *)
Definition reviewer_recorded (s : Suggestion) : Prop :=
  status s <> STATUS_IN_REVIEW -> final_reviewer_id s <> None.

(** The part of the invariant of the data model that every stored
    suggestion keeps: handled means not in review, and a suggestion that is
    not in review has a final reviewer. *)
Definition lifecycle_invariant (st : State) : Prop :=
  forall id m, suggestion_store st !! id = Some m ->
    let s := get_suggestion_from_model (id, m) in
    (is_handled s = true <-> status s <> STATUS_IN_REVIEW)
    /\ reviewer_recorded s.

(** The invariant as the data model words it: the three conditions are
    equivalent. *)
Definition handled_iff_reviewed (s : Suggestion) : Prop :=
  (is_handled s = true <-> status s <> STATUS_IN_REVIEW)
  /\ (status s <> STATUS_IN_REVIEW <-> final_reviewer_id s <> None).

(** Every record written by a step is one with its reviewer recorded. *)
Definition store_step (st st' : State) : Prop :=
  forall id m', suggestion_store st' !! id = Some m' ->
    suggestion_store st !! id = Some m' \/
    reviewer_recorded (get_suggestion_from_model (id, m')).

(** The sent-flag of a (user, category) pair; a pair without a record has
    not been sent anything. *)
Definition email_sent_flag
    (sc : gmap (string * string) UserContributionScoring)
    (k : string * string) : bool :=
  match sc !! k with
  | Some r => onboard_reviewer_email_sent r
  | None => false
  end.

(** How many onboarding notifications were dispatched for a pair. *)
Definition notifications (es : list (string * string)) (k : string * string)
    : nat :=
  length (filter (fun k' => k' = k) es).

(** Scoring records are stored under their own (user, category), and a
    pair has received no notification while its flag is unset and at most
    one once it is set. *)
Definition scoring_ok (sc : gmap (string * string) UserContributionScoring)
    (es : list (string * string)) : Prop :=
  (forall k r, sc !! k = Some r -> (user_id r, us_score_category r) = k)
  /\ (forall k, (notifications es k <= if email_sent_flag sc k then 1 else 0)%nat).

Definition scoring_invariant (st : State) : Prop :=
  scoring_ok (scoring_store st) (emails st).

(** One scoring update: the record [r'] is written under [k], with or
    without a notification for [k]. A notification goes out only when the
    flag was unset, and then the written flag is set; a set flag stays
    set. *)
Definition scoring_write
    (sc : gmap (string * string) UserContributionScoring)
    (k : string * string) (r' : UserContributionScoring) (sent : bool) : Prop :=
  (user_id r', us_score_category r') = k
  /\ (email_sent_flag sc k = true ->
      onboard_reviewer_email_sent r' = true /\ sent = false)
  /\ (sent = true -> onboard_reviewer_email_sent r' = true).

(** What a step does to the scoring records and the notifications:
    nothing, or one scoring update. *)
Definition scoring_step (st st' : State) : Prop :=
  (scoring_store st' = scoring_store st /\ emails st' = emails st) \/
  (exists k r' sent,
     scoring_write (scoring_store st) k r' sent
     /\ scoring_store st' = <[k := r']> (scoring_store st)
     /\ emails st' = if sent then emails st ++ [k] else emails st).

(** The domain object of a stored model after the two setters of an
    acceptance, and after the two assignments of a resubmission. *)
Definition accepted_by (reviewer_id : string) (im : string * SuggestionModel)
    : Suggestion :=
  set_final_reviewer_id reviewer_id
    (set_suggestion_status_to_accepted (get_suggestion_from_model im)).

Definition resubmitted_with (c : Change) (im : string * SuggestionModel)
    : Suggestion :=
  set_suggestion_status_to_in_review
    (set_change c (get_suggestion_from_model im)).

(** The stored model [m] with a new status, final reviewer, change and
    time of last update; every other field is the one of [m]. *)
Definition model_update (s : Status) (r : option string) (c : Change)
    (t : nat) (m : SuggestionModel) : SuggestionModel :=
  mkSuggestionModel (m_suggestion_type m) (m_target_type m) (m_target_id m)
    (m_target_version_at_submission m) s (m_author_id m) r c
    (m_score_category m) t.

(** What one call can do to a stored suggestion: nothing, accept it,
    reject it, or put a rejected one back in review with a new change. *)
Inductive transition (t : nat) (m : SuggestionModel) : SuggestionModel -> Prop :=
  | tr_same : transition t m m
  | tr_accept r :
      m_status m = STATUS_IN_REVIEW ->
      transition t m (model_update STATUS_ACCEPTED (Some r) (m_change_cmd m) t m)
  | tr_reject r :
      m_status m = STATUS_IN_REVIEW ->
      transition t m (model_update STATUS_REJECTED (Some r) (m_change_cmd m) t m)
  | tr_resubmit c :
      m_status m = STATUS_REJECTED ->
      transition t m
        (model_update STATUS_IN_REVIEW (m_final_reviewer_id m) c t m).

(** The edges of the state machine. *)
Definition legal_status_step (a b : Status) : bool :=
  match a, b with
  | STATUS_IN_REVIEW, _ => true
  | STATUS_REJECTED, STATUS_REJECTED | STATUS_REJECTED, STATUS_IN_REVIEW => true
  | STATUS_ACCEPTED, STATUS_ACCEPTED => true
  | _, _ => false
  end.

Definition is_create (o : Op) : bool :=
  match o with OpCreate _ _ _ _ _ _ _ => true | _ => false end.

(** The scoring record [get_user_scoring] builds for a pair. *)
Definition scoring_of (sc : gmap (string * string) UserContributionScoring)
    (u c : string) : UserContributionScoring :=
  match sc !! (u, c) with
  | Some r => get_user_scoring_from_model r
  | None => mkScoring u c 0 false
  end.

(** The state after the scoring block of [accept_suggestion] for the
    author [u] and the category [c]. *)
Definition scored (env : Env) (u c : string) (st : State) : State :=
  if ENABLE_RECORDING_OF_SCORES env then
    let us := increment_score (INCREMENT_SCORE_OF_AUTHOR_BY env)
                (scoring_of (scoring_store st) u c) in
    if SEND_SUGGESTION_REVIEW_RELATED_EMAILS env
       && (can_user_review_category env us
           && negb (onboard_reviewer_email_sent us))
    then with_scoring
           (insert (user_id us, us_score_category us)
                   (mark_onboarding_email_as_sent us))
           (with_emails (fun es => es ++ [(u, c)]) st)
    else with_scoring (insert (user_id us, us_score_category us) us) st
  else st.

(** The message [accept_suggestion] posts, and the state it leaves when it
    returns, for the stored model [m] of the suggestion [id]. *)
Definition accepted_state (env : Env) (id reviewer_id commit_message
    review_message : string) (m : SuggestionModel) (st : State) : State :=
  let s := accepted_by reviewer_id (id, m) in
  let st1 :=
    with_commits (fun cs => cs ++
      [(target_id s, change s,
        get_commit_message_for_suggestion env
          (get_username env (author_id s)) commit_message)]) st in
  scored env (author_id s) (score_category s)
    (with_messages (fun ms => ms ++
        [mkMessage id reviewer_id STATUS_CHOICES_FIXED None review_message])
       (updated [copy_fields s (id, m)] true st1)).

(** The models [l] are, id by id, the stored models of the batch [ids]
    with the fields of their rejection. *)
Definition rejected_batch (st : State) (reviewer_id : string)
    (ids : list string) (l : list (string * SuggestionModel)) : Prop :=
  Forall2 (fun id im => exists m, suggestion_store st !! id = Some m /\
              im = copy_fields (rejected_by reviewer_id (id, m)) (id, m)) ids l.

(** The state [reject_suggestions] leaves when it returns, having written
    the models [l]. *)
Definition rejected_state (ids : list string) (reviewer_id review_message : string)
    (l : list (string * SuggestionModel)) (st : State) : State :=
  with_messages (fun ms => ms ++
      map (fun tid => mkMessage tid reviewer_id STATUS_CHOICES_IGNORED None
                        review_message) ids)
    (updated l true st).

(** The fields of a suggestion that are fixed when it is created. *)
Definition creation_fields (s : Suggestion)
    : string * string * Z * string * Change :=
  (suggestion_type s, target_id s, target_version_at_submission s,
   author_id s, change s).

(** * Properties *)

(** ** Blank messages *)

Module PyStrFacts.
Import PyStr.

Lemma only_whitespace_lstrip s : only_whitespace (lstrip s) = only_whitespace s.
Proof.
  induction s as [|c s IH]; simpl; [reflexivity|].
  destruct (isspace c) eqn:Hc; simpl; [exact IH | now rewrite Hc].
Qed.

Lemma only_whitespace_rev_app s1 s2 :
  only_whitespace (String.rev_app s1 s2)
  = only_whitespace s1 && only_whitespace s2.
Proof.
  revert s2; induction s1 as [|c s1 IH]; intros s2; simpl; [reflexivity|].
  rewrite IH; simpl.
  destruct (isspace c), (only_whitespace s1), (only_whitespace s2); reflexivity.
Qed.

Lemma only_whitespace_rev s : only_whitespace (String.rev s) = only_whitespace s.
Proof.
  unfold String.rev. rewrite only_whitespace_rev_app. simpl.
  apply andb_true_r.
Qed.

Lemma only_whitespace_strip s : only_whitespace (strip s) = only_whitespace s.
Proof.
  unfold strip, rstrip.
  now rewrite only_whitespace_rev, only_whitespace_lstrip,
    only_whitespace_rev, only_whitespace_lstrip.
Qed.

Lemma truthy_of_not_whitespace s : only_whitespace s = false -> truthy s = true.
Proof. destruct s; simpl; [discriminate | reflexivity]. Qed.

Lemma lstrip_whitespace s : only_whitespace s = true -> lstrip s = "".
Proof.
  induction s as [|c s IH]; simpl; [reflexivity|].
  intros [Hc Hs]%andb_true_iff. rewrite Hc. auto.
Qed.

Lemma strip_whitespace s : only_whitespace s = true -> strip s = "".
Proof.
  intros H. unfold strip, rstrip. rewrite (lstrip_whitespace s H). reflexivity.
Qed.

(** The guard [not s or not s.strip()] is exactly "every character of [s]
    is whitespace". *)
Lemma blank_guard s :
  negb (truthy s) || negb (truthy (strip s)) = only_whitespace s.
Proof.
  destruct (only_whitespace s) eqn:H.
  - rewrite (strip_whitespace s H). simpl. apply orb_true_r.
  - rewrite (truthy_of_not_whitespace s H).
    rewrite (truthy_of_not_whitespace (strip s)); [reflexivity|].
    now rewrite only_whitespace_strip.
Qed.

Lemma truthy_nonempty s : s <> "" -> truthy s = true.
Proof. destruct s; [congruence | reflexivity]. Qed.

End PyStrFacts.

(** ** The store adapter *)

Section StoreFacts.

Implicit Types (store : gmap string SuggestionModel)
               (ms : list (string * SuggestionModel)).

Lemma put_all_cons im ms store :
  put_all (im :: ms) store = put_all ms (<[fst im := snd im]> store).
Proof. reflexivity. Qed.

Lemma map_fst_stamped (f : SuggestionModel -> SuggestionModel) ms :
  map fst (map (fun im => (fst im, f (snd im))) ms) = map fst ms.
Proof. induction ms as [|im ms IH]; simpl; [reflexivity | now rewrite IH]. Qed.

(** A key no written model has keeps its record. *)
Lemma put_all_lookup_notin ms store id :
  id ∉ map fst ms -> put_all ms store !! id = store !! id.
Proof.
  revert store; induction ms as [|im ms IH]; intros store Hid; [reflexivity|].
  rewrite put_all_cons, IH.
  - apply lookup_insert_ne. intros Heq. apply Hid. simpl. rewrite Heq. left.
  - intros Hin. apply Hid. simpl. now right.
Qed.

(** When all the models written under a key agree, that is the record. *)
Lemma put_all_lookup_same ms store id v :
  id ∈ map fst ms ->
  (forall m, (id, m) ∈ ms -> m = v) ->
  put_all ms store !! id = Some v.
Proof.
  revert store; induction ms as [|[k m] ms IH]; intros store Hin Hsame.
  - inversion Hin.
  - rewrite put_all_cons. simpl.
    destruct (decide (id ∈ map fst ms)) as [Hlater|Hlater].
    + apply IH; [exact Hlater|]. intros m' Hm'. apply Hsame. now right.
    + rewrite put_all_lookup_notin by exact Hlater.
      simpl in Hin. apply elem_of_cons in Hin as [->|Hin]; [|contradiction].
      rewrite lookup_insert_eq. f_equal. apply Hsame. left.
Qed.

(** Every record of the written store was there before or was written. *)
Lemma put_all_lookup_inv ms store id m :
  put_all ms store !! id = Some m ->
  store !! id = Some m \/ (id, m) ∈ ms.
Proof.
  revert store; induction ms as [|[k m'] ms IH]; intros store H.
  - now left.
  - rewrite put_all_cons in H. simpl in H.
    destruct (IH _ H) as [Hs|Hin].
    + destruct (decide (k = id)) as [->|Hne].
      * rewrite lookup_insert_eq in Hs. injection Hs as ->. right. left.
      * rewrite lookup_insert_ne in Hs by exact Hne. now left.
    + right. now right.
Qed.

End StoreFacts.

(** ** Updating suggestions *)

Section UpdateFacts.

Variable env : Env.

Lemma validate_all_inv ss ids :
  validate_all env ss = Ok ids ->
  ids = map suggestion_id ss /\ Forall (fun s => validate env s = true) ss.
Proof.
  revert ids; induction ss as [|s ss IH]; simpl; intros ids H.
  - injection H as <-. split; constructor.
  - unfold run_validate in H. destruct (validate env s) eqn:Hv; [|discriminate].
    destruct (validate_all env ss) as [ids'|e]; [|discriminate].
    injection H as <-. destruct (IH _ eq_refl) as [-> HF].
    split; [reflexivity | constructor; assumption].
Qed.

Lemma validate_all_ok ss :
  Forall (fun s => validate env s = true) ss ->
  validate_all env ss = Ok (map suggestion_id ss).
Proof.
  induction 1 as [|s ss Hs _ IH]; simpl; [reflexivity|].
  unfold run_validate. now rewrite Hs, IH.
Qed.

Lemma copy_all_inv store pre rest l :
  copy_all (pre ++ rest) (length pre)
           (map (fetch store) (map suggestion_id rest)) = Ok l ->
  Forall2 (written store) rest l.
Proof.
  revert pre l; induction rest as [|s rest IH]; simpl; intros pre l H.
  - injection H as <-. constructor.
  - rewrite list_lookup_middle in H by reflexivity.
    unfold fetch in H at 1.
    destruct (store !! suggestion_id s) as [m|] eqn:Hm; [|discriminate].
    replace (pre ++ s :: rest) with ((pre ++ [s]) ++ rest) in H
      by now rewrite <- app_assoc.
    replace (S (length pre)) with (length (pre ++ [s])) in H
      by (rewrite length_app; simpl; lia).
    destruct (copy_all _ _ _) as [l'|e] eqn:Hrest; [|discriminate].
    injection H as <-. constructor; [|eapply IH; exact Hrest].
    exists m. split; [exact Hm | reflexivity].
Qed.

Lemma copy_all_ok store pre rest :
  Forall (fun s => is_Some (store !! suggestion_id s)) rest ->
  exists l, copy_all (pre ++ rest) (length pre)
              (map (fetch store) (map suggestion_id rest)) = Ok l.
Proof.
  intros HF; revert pre; induction HF as [|s rest [m Hm] _ IH]; intros pre; simpl.
  - eauto.
  - rewrite list_lookup_middle by reflexivity.
    unfold fetch at 1. rewrite Hm.
    destruct (IH (pre ++ [s])) as [l Hl].
    rewrite <- app_assoc, length_app in Hl. simpl in Hl.
    replace (length pre + 1)%nat with (S (length pre)) in Hl by lia.
    rewrite Hl. eauto.
Qed.

(** [_update_suggestions] raises without writing, or writes every given
    suggestion over its stored model in one batch. *)
Lemma update_suggestions_cases ss flag st :
  (exists e, _update_suggestions env ss flag st = (Raise e, st)) \/
  (exists l, Forall2 (written (suggestion_store st)) ss l /\
             Forall (fun s => validate env s = true) ss /\
             _update_suggestions env ss flag st = (Ok tt, updated l flag st)).
Proof.
  unfold _update_suggestions, mbind, M_bind, lift, get_multi, put_multi.
  destruct (validate_all env ss) as [ids|e] eqn:Hv; [|left; eauto].
  destruct (validate_all_inv _ _ Hv) as [-> HF].
  destruct (copy_all ss 0 _) as [l|e] eqn:Hc; [|left; eauto].
  right. exists l. split; [|split; [exact HF | reflexivity]].
  apply (copy_all_inv _ [] ss l Hc).
Qed.

Lemma update_suggestions_ok ss flag st :
  Forall (fun s => validate env s = true) ss ->
  Forall (fun s => is_Some (suggestion_store st !! suggestion_id s)) ss ->
  exists l, Forall2 (written (suggestion_store st)) ss l /\
            _update_suggestions env ss flag st = (Ok tt, updated l flag st).
Proof.
  intros Hv Hp.
  destruct (copy_all_ok (suggestion_store st) [] ss Hp) as [l Hl].
  exists l. split; [apply (copy_all_inv _ [] ss l Hl)|].
  unfold _update_suggestions, mbind, M_bind, lift, get_multi, put_multi.
  rewrite (validate_all_ok _ Hv). simpl in Hl. now rewrite Hl.
Qed.

End UpdateFacts.

(** ** Acceptance *)

Section AcceptFacts.

Variable env : Env.

Lemma get_suggestion_by_id_eq id st :
  get_suggestion_by_id id st
  = (Ok (option_map get_suggestion_from_model
           (fetch (suggestion_store st) id)), st).
Proof. reflexivity. Qed.

Lemma fetch_present st id m :
  suggestion_store st !! id = Some m ->
  fetch (suggestion_store st) id = Some (id, m).
Proof. unfold fetch. now intros ->. Qed.

Lemma fetch_absent st id :
  suggestion_store st !! id = None -> fetch (suggestion_store st) id = None.
Proof. unfold fetch. now intros ->. Qed.

(** C7: for every suggestion id and every commit message that is empty or
    consists only of whitespace, [accept_suggestion] raises "Commit message
    cannot be empty." and the whole persisted state (suggestion records,
    scoring records, thread messages, everything else) is the one the call
    started from. *)
Theorem accept_blank_commit_message_fails
    st suggestion_id reviewer_id commit_message review_message :
  commit_message = "" \/ PyStr.only_whitespace commit_message = true ->
  accept_suggestion env suggestion_id reviewer_id commit_message
    review_message st = (Raise CommitMessageEmpty, st).
Proof.
  intros H.
  assert (Hw : PyStr.only_whitespace commit_message = true)
    by (destruct H as [->|H]; [reflexivity | exact H]).
  unfold accept_suggestion. rewrite PyStrFacts.blank_guard, Hw. reflexivity.
Qed.

(** C3 (amended): for every stored suggestion whose status is accepted or
    rejected, [accept_suggestion] fails and leaves the whole persisted
    state unchanged; the failure is the already-handled one when the commit
    message is not blank, and the blank-commit-message one otherwise. *)
Theorem accept_handled_fails
    st suggestion_id m reviewer_id commit_message review_message :
  suggestion_store st !! suggestion_id = Some m ->
  m_status m = STATUS_ACCEPTED \/ m_status m = STATUS_REJECTED ->
  accept_suggestion env suggestion_id reviewer_id commit_message
    review_message st
  = (Raise (if PyStr.only_whitespace commit_message
            then CommitMessageEmpty
            else AlreadyHandledExn suggestion_id), st)
  /\ error_kind (AlreadyHandledExn suggestion_id) = Some KAlreadyHandled
  /\ error_kind CommitMessageEmpty = Some KPreconditionFailed.
Proof.
  intros Hm Hs. split; [|split; reflexivity].
  unfold accept_suggestion. rewrite PyStrFacts.blank_guard.
  destruct (PyStr.only_whitespace commit_message); [reflexivity|].
  unfold mbind, M_bind. rewrite get_suggestion_by_id_eq, (fetch_present _ _ _ Hm).
  simpl. unfold is_handled. simpl.
  destruct Hs as [-> | ->]; reflexivity.
Qed.

End AcceptFacts.

(** ** Resubmission *)

Section ResubmitFacts.

Variable env : Env.

(** C6: for every stored suggestion whose status is accepted,
    [resubmit_rejected_suggestion] fails with a precondition failure and
    leaves the whole persisted state unchanged: "was accepted, only
    rejected suggestions can be resubmitted" when the summary message is
    not empty, "summary message cannot be empty" otherwise. *)
Theorem resubmit_accepted_fails st suggestion_id m summary_message author_id change :
  suggestion_store st !! suggestion_id = Some m ->
  m_status m = STATUS_ACCEPTED ->
  exists e,
    resubmit_rejected_suggestion env suggestion_id summary_message author_id
      change st = (Raise e, st)
    /\ error_kind e = Some KPreconditionFailed
    /\ e = (if PyStr.truthy summary_message
            then WasAcceptedExn suggestion_id
            else SummaryMessageEmpty).
Proof.
  intros Hm Hs.
  unfold resubmit_rejected_suggestion, mbind, M_bind.
  rewrite get_suggestion_by_id_eq, (fetch_present _ _ _ Hm). simpl.
  destruct (PyStr.truthy summary_message); simpl.
  - unfold is_handled. simpl. rewrite Hs. simpl. eauto.
  - eauto.
Qed.

(** C9 (what the code does): for every id with no stored suggestion,
    [resubmit_rejected_suggestion] leaves the state unchanged, but the
    exception is the interpreter's AttributeError for [None.is_handled]
    (or, with an empty summary message, "summary message cannot be
    empty"): in neither case a not-found failure. *)
Theorem resubmit_missing_is_attribute_error
    st suggestion_id summary_message author_id change :
  suggestion_store st !! suggestion_id = None ->
  exists e,
    resubmit_rejected_suggestion env suggestion_id summary_message author_id
      change st = (Raise e, st)
    /\ e = (if PyStr.truthy summary_message
            then NoneAttributeError "is_handled"
            else SummaryMessageEmpty)
    /\ error_kind e <> Some KNotFound.
Proof.
  intros Hm.
  unfold resubmit_rejected_suggestion, mbind, M_bind.
  rewrite get_suggestion_by_id_eq, (fetch_absent _ _ Hm). simpl.
  destruct (PyStr.truthy summary_message); simpl;
    eexists; (split; [reflexivity | split; [reflexivity | discriminate]]).
Qed.

(** C5: for every stored suggestion whose status is rejected, every
    non-empty summary message and every change that passes the pre-update
    validation (and with which the suggestion passes the entity validation
    run by every update), [resubmit_rejected_suggestion] returns, and the
    stored suggestion then has the new change, status in-review, and the
    final reviewer id it had before the call. *)
Theorem resubmit_rejected_keeps_reviewer
    st suggestion_id m summary_message author_id change :
  suggestion_store st !! suggestion_id = Some m ->
  m_status m = STATUS_REJECTED ->
  summary_message <> "" ->
  pre_update_validate env (get_suggestion_from_model (suggestion_id, m))
    change = true ->
  validate env
    (set_suggestion_status_to_in_review
       (set_change change (get_suggestion_from_model (suggestion_id, m))))
    = true ->
  exists st' m',
    resubmit_rejected_suggestion env suggestion_id summary_message author_id
      change st = (Ok tt, st')
    /\ suggestion_store st' !! suggestion_id = Some m'
    /\ m_change_cmd m' = change
    /\ m_status m' = STATUS_IN_REVIEW
    /\ m_final_reviewer_id m' = m_final_reviewer_id m.
Proof.
  intros Hm Hs Hsum Hpre Hval.
  unfold resubmit_rejected_suggestion, mbind, M_bind.
  rewrite get_suggestion_by_id_eq, (fetch_present _ _ _ Hm). simpl.
  rewrite (PyStrFacts.truthy_nonempty _ Hsum). simpl.
  unfold is_handled. simpl. rewrite Hs. simpl.
  rewrite Hpre.
  set (s := set_suggestion_status_to_in_review _).
  unfold _update_suggestion.
  destruct (update_suggestions_ok env [s] true st) as (l & Hl & Hupd).
  - repeat constructor. exact Hval.
  - repeat constructor. simpl. rewrite Hm. eauto.
  - unfold mret, M_ret. rewrite Hupd. unfold create_message. simpl.
    inversion Hl as [|? im ? l' (m0 & Hm0 & Him) Hnil]; subst.
    inversion Hnil; subst. simpl in Hm0. rewrite Hm in Hm0.
    injection Hm0 as <-.
    eexists _, _. split; [reflexivity|]. simpl.
    split; [apply lookup_insert_eq|]. repeat split.
Qed.

End ResubmitFacts.

(** ** Rejection *)

Section RejectFacts.

Variable env : Env.

Lemma get_suggestions_by_ids_eq ids st :
  get_suggestions_by_ids ids st = (Ok (stored_suggestions st ids), st).
Proof. reflexivity. Qed.

Lemma reject_check_cons st ids index id rest :
  reject_check ids index (stored_suggestions st (id :: rest))
  = match suggestion_store st !! id with
    | Some m =>
        if bool_decide (m_status m ≠ STATUS_IN_REVIEW)
        then Raise (AlreadyHandledExn id)
        else reject_check ids (S index) (stored_suggestions st rest)
    | None =>
        match ids !! index with
        | Some id' => Raise (RejectDoesNotExist id')
        | None => Raise IndexError
        end
    end.
Proof.
  unfold stored_suggestions. simpl. unfold fetch at 1.
  destruct (suggestion_store st !! id); reflexivity.
Qed.

(** The validation loop returns exactly when every id is stored and in
    review; otherwise it raises for an offending id. *)
Lemma reject_check_cases st pre rest :
  (reject_check (pre ++ rest) (length pre) (stored_suggestions st rest) = Ok tt
   /\ Forall (unhandled_in st) rest) \/
  (exists e id, reject_check (pre ++ rest) (length pre)
                  (stored_suggestions st rest) = Raise e
                /\ id ∈ rest /\ offends st id e).
Proof.
  revert pre; induction rest as [|id rest IH]; intros pre.
  - left. split; [reflexivity | constructor].
  - rewrite reject_check_cons.
    destruct (suggestion_store st !! id) as [m|] eqn:Hm.
    + destruct (decide (m_status m = STATUS_IN_REVIEW)) as [Hs|Hs].
      * rewrite bool_decide_false by (intros Hne; apply Hne, Hs).
        specialize (IH (pre ++ [id])).
        rewrite <- app_assoc, length_app in IH. simpl in IH.
        replace (length pre + 1)%nat with (S (length pre)) in IH by lia.
        destruct IH as [[Hok HF] | (e & id' & He & Hin & Hoff)].
        -- left. split; [exact Hok|]. constructor; [|exact HF].
           exists m. auto.
        -- right. exists e, id'. split; [exact He|]. split; [now right | exact Hoff].
      * rewrite bool_decide_true by exact Hs.
        right. exists (AlreadyHandledExn id), id.
        split; [reflexivity|]. split; [left|]. right. eauto.
    + rewrite list_lookup_middle by reflexivity.
      right. exists (RejectDoesNotExist id), id.
      split; [reflexivity|]. split; [left|]. left. auto.
Qed.

(** The same, locating the offending id: it is the first id of the batch
    that is not both stored and in review. *)
Lemma reject_check_split st pre rest :
  (reject_check (pre ++ rest) (length pre) (stored_suggestions st rest) = Ok tt
   /\ Forall (unhandled_in st) rest) \/
  (exists e ok id tl,
     reject_check (pre ++ rest) (length pre) (stored_suggestions st rest)
     = Raise e
     /\ rest = ok ++ id :: tl
     /\ Forall (unhandled_in st) ok
     /\ offends st id e).
Proof.
  revert pre; induction rest as [|id rest IH]; intros pre.
  - left. split; [reflexivity | constructor].
  - rewrite reject_check_cons.
    destruct (suggestion_store st !! id) as [m|] eqn:Hm.
    + destruct (decide (m_status m = STATUS_IN_REVIEW)) as [Hs|Hs].
      * rewrite bool_decide_false by (intros Hne; apply Hne, Hs).
        specialize (IH (pre ++ [id])).
        rewrite <- app_assoc, length_app in IH. simpl in IH.
        replace (length pre + 1)%nat with (S (length pre)) in IH by lia.
        destruct IH as [[Hok HF] | (e & ok & id' & tl & He & Heq & Hpre & Hoff)].
        -- left. split; [exact Hok|]. constructor; [|exact HF].
           exists m. auto.
        -- right. exists e, (id :: ok), id', tl.
           split; [exact He|]. split; [rewrite Heq; reflexivity|].
           split; [|exact Hoff]. constructor; [|exact Hpre].
           exists m. auto.
      * rewrite bool_decide_true by exact Hs.
        right. exists (AlreadyHandledExn id), [], id, rest.
        split; [reflexivity|]. split; [reflexivity|].
        split; [constructor|]. right. eauto.
    + rewrite list_lookup_middle by reflexivity.
      right. exists (RejectDoesNotExist id), [], id, rest.
      split; [reflexivity|]. split; [reflexivity|].
      split; [constructor|]. left. auto.
Qed.

Lemma offends_not_unhandled st id e :
  offends st id e -> unhandled_in st id -> False.
Proof.
  intros [[Hn _] | (m & Hm & Hs & _)] (m' & Hm' & Hs'); congruence.
Qed.

Lemma offends_kind st id e :
  offends st id e ->
  error_kind e = Some KNotFound \/ error_kind e = Some KAlreadyHandled.
Proof. intros [[_ ->] | (m & _ & _ & ->)]; [left | right]; reflexivity. Qed.

(** The mutation loop on a validated batch. *)
Lemma reject_each_unhandled st reviewer_id ids :
  Forall (unhandled_in st) ids ->
  exists ss,
    reject_each reviewer_id (stored_suggestions st ids) = Ok ss /\
    Forall2 (fun id s => exists m, suggestion_store st !! id = Some m /\
                                   s = rejected_by reviewer_id (id, m)) ids ss.
Proof.
  induction 1 as [|id ids (m & Hm & Hs) _ (ss & Hss & HF)].
  - exists []. split; [reflexivity | constructor].
  - unfold stored_suggestions in *. simpl. unfold fetch at 1. rewrite Hm. simpl.
    rewrite Hss. eexists. split; [reflexivity|].
    constructor; [|exact HF]. exists m. auto.
Qed.

(** A failure of the mutation loop has no effect either (it is pure). *)
Lemma reject_suggestions_raise_unchanged ids reviewer_id review_message st e st' :
  reject_suggestions env ids reviewer_id review_message st = (Raise e, st') ->
  st' = st.
Proof.
  unfold reject_suggestions, mbind, M_bind, lift, raise.
  rewrite get_suggestions_by_ids_eq.
  destruct (reject_check _ _ _); [|now intros [= _ <-]].
  destruct (negb _); [now intros [= _ <-]|].
  destruct (reject_each _ _) as [ss|e']; [|now intros [= _ <-]].
  destruct (update_suggestions_cases env ss true st)
    as [(e' & ->) | (l & _ & _ & ->)]; [now intros [= _ <-]|].
  unfold create_messages. discriminate.
Qed.

End RejectFacts.

Section RejectClaims.

Variable env : Env.

(** The models a validated batch writes, id by id. *)
Lemma rejected_batch_written st reviewer_id ids ss l :
  Forall2 (fun id s => exists m, suggestion_store st !! id = Some m /\
                                 s = rejected_by reviewer_id (id, m)) ids ss ->
  Forall2 (written (suggestion_store st)) ss l ->
  Forall2 (fun id im => exists m, suggestion_store st !! id = Some m /\
             im = copy_fields (rejected_by reviewer_id (id, m)) (id, m)) ids l.
Proof.
  intros H; revert l; induction H as [|id s ids ss (m & Hm & ->) _ IH];
    intros l Hl; inversion Hl as [|? im ? l' (m' & Hm' & Him) Hl']; subst.
  - constructor.
  - constructor; [|apply IH; exact Hl'].
    simpl in Hm'. rewrite Hm in Hm'. injection Hm' as <-. exists m. auto.
Qed.

Lemma batch_ids st reviewer_id ids l :
  Forall2 (fun id im => exists m, suggestion_store st !! id = Some m /\
             im = copy_fields (rejected_by reviewer_id (id, m)) (id, m)) ids l ->
  map fst l = ids.
Proof.
  induction 1 as [|id im ids l (m & _ & ->) _ IH]; simpl; [reflexivity|].
  now rewrite IH.
Qed.

Lemma batch_member st reviewer_id ids l id x :
  Forall2 (fun id im => exists m, suggestion_store st !! id = Some m /\
             im = copy_fields (rejected_by reviewer_id (id, m)) (id, m)) ids l ->
  (id, x) ∈ l ->
  exists m, suggestion_store st !! id = Some m /\
            (id, x) = copy_fields (rejected_by reviewer_id (id, m)) (id, m).
Proof.
  induction 1 as [|id' im ids l (m & Hm & ->) _ IH]; intros Hin.
  - inversion Hin.
  - apply elem_of_cons in Hin as [Heq|Hin]; [|auto].
    assert (id = id') as -> by (now injection Heq).
    exists m. auto.
Qed.

(** C2 (amended): [reject_suggestions] is all-or-nothing. If any referenced
    id is absent from the store or already handled, the call raises (a
    not-found or an already-handled failure) and the whole state is
    unchanged. If every id is stored and in review, the review message is
    not empty and each rejected suggestion passes the entity validation of
    the update, the call returns, every suggestion of the batch is stored
    as rejected with the reviewer as final reviewer, the other suggestions
    are untouched, and the store saw exactly one more batch write, that of
    the ids of the batch. And whenever the call raises, the state is
    unchanged. *)
Theorem reject_suggestions_all_or_nothing st ids reviewer_id review_message :
  (Exists (fun id => suggestion_store st !! id = None \/
                     exists m, suggestion_store st !! id = Some m /\
                               m_status m <> STATUS_IN_REVIEW) ids ->
     exists e, reject_suggestions env ids reviewer_id review_message st
               = (Raise e, st)
               /\ (error_kind e = Some KNotFound \/
                   error_kind e = Some KAlreadyHandled))
  /\ (Forall (unhandled_in st) ids ->
      review_message <> "" ->
      (forall id m, id ∈ ids -> suggestion_store st !! id = Some m ->
                    validate env (rejected_by reviewer_id (id, m)) = true) ->
      exists st',
        reject_suggestions env ids reviewer_id review_message st = (Ok tt, st')
        /\ (forall id, id ∈ ids ->
              exists m m', suggestion_store st !! id = Some m
                /\ suggestion_store st' !! id = Some m'
                /\ m_status m' = STATUS_REJECTED
                /\ m_final_reviewer_id m' = Some reviewer_id
                /\ m_change_cmd m' = m_change_cmd m)
        /\ (forall id, id ∉ ids ->
              suggestion_store st' !! id = suggestion_store st !! id)
        /\ batch_writes st' = batch_writes st ++ [ids])
  /\ (forall e st',
        reject_suggestions env ids reviewer_id review_message st = (Raise e, st')
        -> st' = st).
Proof.
  split; [|split].
  - intros Hbad.
    destruct (reject_check_cases st [] ids)
      as [[_ HF] | (e & id & He & Hin & Hoff)].
    + exfalso. apply Exists_exists in Hbad as (id & Hin & Hid).
      rewrite Forall_forall in HF. destruct (HF id Hin) as (m & Hm & Hs).
      destruct Hid as [Hn | (m' & Hm' & Hs')]; congruence.
    + exists e. split; [|eapply offends_kind; exact Hoff].
      unfold reject_suggestions, mbind, M_bind, lift.
      rewrite get_suggestions_by_ids_eq. simpl in He. now rewrite He.
  - intros Hgood Hmsg Hval.
    destruct (reject_check_cases st [] ids)
      as [[Hok _] | (e & id & _ & Hin & Hoff)].
    2:{ exfalso. eapply offends_not_unhandled; [exact Hoff|].
        rewrite Forall_forall in Hgood. apply Hgood. exact Hin. }
    destruct (reject_each_unhandled st reviewer_id ids Hgood) as (ss & Hss & HR).
    assert (Hvalid : Forall (fun s => validate env s = true) ss).
    { clear Hss Hok Hgood.
      induction HR as [|id s ids' ss' (m & Hm & ->) _ IH]; constructor.
      - apply Hval; [left | exact Hm].
      - apply IH. intros id' m' Hin. apply Hval. now right. }
    assert (Hpresent :
      Forall (fun s => is_Some (suggestion_store st !! suggestion_id s)) ss).
    { clear Hss Hval Hok Hgood Hvalid.
      induction HR as [|id s ids' ss' (m & Hm & ->) _ IH]; constructor.
      - simpl. rewrite Hm. eauto.
      - exact IH. }
    destruct (update_suggestions_ok env ss true st Hvalid Hpresent)
      as (l & Hl & Hupd).
    pose proof (rejected_batch_written _ _ _ _ _ HR Hl) as Hb.
    eexists. split.
    { unfold reject_suggestions, mbind, M_bind, lift.
      rewrite get_suggestions_by_ids_eq. simpl in Hok. rewrite Hok.
      rewrite (PyStrFacts.truthy_nonempty _ Hmsg). simpl.
      rewrite Hss, Hupd. reflexivity. }
    unfold updated, with_messages, with_suggestions.
    cbn [suggestion_store batch_writes].
    rewrite (batch_ids _ _ _ _ Hb).
    split; [|split; [|reflexivity]].
    + intros id Hin.
      rewrite Forall_forall in Hgood.
      destruct (Hgood id Hin) as (m & Hm & Hs).
      exists m. eexists. split; [exact Hm|]. split.
      * apply put_all_lookup_same
          with (v := stamp true (now st)
                       (snd (copy_fields (rejected_by reviewer_id (id, m)) (id, m)))).
        -- rewrite map_fst_stamped, (batch_ids _ _ _ _ Hb). exact Hin.
        -- intros x Hx. apply list_elem_of_In, in_map_iff in Hx
             as ([id' x'] & Heq & Hx'). simpl in Heq.
           injection Heq as -> <-.
           apply list_elem_of_In in Hx'.
           destruct (batch_member _ _ _ _ _ _ Hb Hx') as (m' & Hm' & Heq).
           rewrite Hm in Hm'. injection Hm' as <-.
           apply (f_equal snd) in Heq. simpl in Heq. now rewrite Heq.
      * repeat split.
    + intros id Hnin. apply put_all_lookup_notin.
      rewrite map_fst_stamped, (batch_ids _ _ _ _ Hb). exact Hnin.
  - apply reject_suggestions_raise_unchanged.
Qed.

(** C8 (amended): with an empty review message, [reject_suggestions] and
    [reject_suggestion] raise and leave the whole state unchanged, and the
    failure is determined by the batch. When every referenced suggestion is
    stored and in review it is "Review message cannot be empty." (a
    precondition failure). Otherwise it is the failure of an offending id,
    the first id of the batch that is not both stored and in review: the
    not-found failure naming that id when nothing is stored under it, the
    already-handled failure naming that id when it is stored and not in
    review. So the empty message is reported only for a batch that passes
    the check of its ids. *)
Theorem reject_empty_review_message_fails st ids suggestion_id reviewer_id :
  (exists e, reject_suggestions env ids reviewer_id "" st = (Raise e, st)
     /\ ((Forall (unhandled_in st) ids
          /\ e = ReviewMessageEmpty
          /\ error_kind e = Some KPreconditionFailed)
         \/ (exists pre id rest,
               ids = pre ++ id :: rest
               /\ Forall (unhandled_in st) pre
               /\ ((suggestion_store st !! id = None
                    /\ e = RejectDoesNotExist id
                    /\ error_kind e = Some KNotFound)
                   \/ (exists m, suggestion_store st !! id = Some m
                                 /\ m_status m <> STATUS_IN_REVIEW
                                 /\ e = AlreadyHandledExn id
                                 /\ error_kind e = Some KAlreadyHandled)))))
  /\ (exists e, reject_suggestion env suggestion_id reviewer_id "" st
                = (Raise e, st)
     /\ ((unhandled_in st suggestion_id
          /\ e = ReviewMessageEmpty
          /\ error_kind e = Some KPreconditionFailed)
         \/ (suggestion_store st !! suggestion_id = None
             /\ e = RejectDoesNotExist suggestion_id
             /\ error_kind e = Some KNotFound)
         \/ (exists m, suggestion_store st !! suggestion_id = Some m
                       /\ m_status m <> STATUS_IN_REVIEW
                       /\ e = AlreadyHandledExn suggestion_id
                       /\ error_kind e = Some KAlreadyHandled))).
Proof.
  assert (H : forall ids',
    exists e, reject_suggestions env ids' reviewer_id "" st = (Raise e, st)
     /\ ((Forall (unhandled_in st) ids' /\ e = ReviewMessageEmpty)
         \/ (exists pre id rest,
               ids' = pre ++ id :: rest
               /\ Forall (unhandled_in st) pre
               /\ offends st id e))).
  { intros ids'.
    unfold reject_suggestions, mbind, M_bind, lift.
    rewrite get_suggestions_by_ids_eq.
    destruct (reject_check_split st [] ids')
      as [[Hok HF] | (e & pre & id & rest & He & Heq & Hpre & Hoff)];
      simpl in *.
    - rewrite Hok. simpl. exists ReviewMessageEmpty. auto.
    - rewrite He. exists e. split; [reflexivity|].
      right. exists pre, id, rest. auto. }
  split.
  - destruct (H ids) as (e & He & [[HF ->] | (pre & id & rest & Heq & Hpre & Hoff)]).
    + exists ReviewMessageEmpty. split; [exact He|]. left. auto.
    + exists e. split; [exact He|]. right. exists pre, id, rest.
      split; [exact Heq|]. split; [exact Hpre|].
      destruct Hoff as [[Hn ->] | (m & Hm & Hs & ->)].
      * left. auto.
      * right. exists m. auto.
  - destruct (H [suggestion_id])
      as (e & He & [[HF ->] | (pre & id & rest & Heq & Hpre & Hoff)]).
    + exists ReviewMessageEmpty. split; [exact He|]. left.
      split; [|split; reflexivity]. now inversion HF.
    + exists e. split; [exact He|]. right.
      assert (Hid : id = suggestion_id).
      { destruct pre as [|p pre]; simpl in Heq.
        - now injection Heq as <-.
        - injection Heq as _ Heq. destruct pre; discriminate. }
      subst id.
      destruct Hoff as [[Hn ->] | (m & Hm & Hs & ->)].
      * left. auto.
      * right. exists m. auto.
Qed.

End RejectClaims.

(** ** Creation *)

Section CreateFacts.

Variable env : Env.

(** The thread [create_suggestion] opens first. *)
Lemma create_suggestion_raise_state
    suggestion_type target_type target_id version author_id change
    description st e st' :
  create_suggestion env suggestion_type target_type target_id version
    author_id change description st = (Raise e, st') ->
  st' = with_threads (fun ts => ts ++ [opened_thread env target_type target_id
                                         author_id description (threads st)]) st.
Proof.
  unfold create_suggestion, mbind, M_bind, create_thread, lift, raise,
    mret, M_ret, get_exploration_by_id, model_create, local, getitem,
    get_content_html, run_validate, opened_thread.
  set (st1 := with_threads _ st).
  assert (Hexp : explorations st1 = explorations st) by reflexivity.
  repeat match goal with
         | |- context [decide ?P] => destruct (decide P)
         | |- context [match ?x !! ?k with _ => _ end] => destruct (x !! k)
         | |- context [if validate env ?s then _ else _] =>
             destruct (validate env s)
         end;
    try (intros [= _ <-]; reflexivity);
    rewrite get_suggestion_by_id_eq; discriminate.
Qed.

(** C10: whenever [create_suggestion] fails because the suggestion type is
    unknown or because the translated html does not match the content of
    the exploration, the discussion thread it opened first is persisted
    (the state is the initial one plus that thread), and no suggestion
    record has been written. *)
Theorem create_failure_keeps_thread
    suggestion_type target_type target_id version author_id change
    description st e st' :
  create_suggestion env suggestion_type target_type target_id version
    author_id change description st = (Raise e, st') ->
  e = InvalidSuggestionTypeExn suggestion_type \/ e = ContentHtmlMismatch ->
  threads st' = threads st ++ [opened_thread env target_type target_id
                                 author_id description (threads st)]
  /\ suggestion_store st' = suggestion_store st
  /\ batch_writes st' = batch_writes st
  /\ error_kind e = Some KValidationError.
Proof.
  intros H He. rewrite (create_suggestion_raise_state _ _ _ _ _ _ _ _ _ _ H).
  repeat split. destruct He as [-> | ->]; reflexivity.
Qed.

End CreateFacts.

(** ** What one operation does to the stores *)

Section StepFacts.

Variable env : Env.

Lemma store_step_refl st : store_step st st.
Proof. intros id m H. now left. Qed.

Lemma store_step_same st st' :
  suggestion_store st' = suggestion_store st -> store_step st st'.
Proof. intros E id m H. rewrite E in H. now left. Qed.

Lemma store_step_trans st1 st2 st3 :
  store_step st1 st2 -> store_step st2 st3 -> store_step st1 st3.
Proof.
  intros H12 H23 id m H. destruct (H23 _ _ H) as [H2|Hok]; [|now right].
  apply H12, H2.
Qed.

(** A batch update writes models that carry the status and the final
    reviewer of the suggestions it was given. *)
Lemma store_step_updated st ss l flag :
  Forall2 (written (suggestion_store st)) ss l ->
  Forall reviewer_recorded ss ->
  store_step st (updated l flag st).
Proof.
  intros Hl Hok id m' H. unfold updated, with_suggestions in H. simpl in H.
  apply put_all_lookup_inv in H as [H|H]; [now left | right].
  apply list_elem_of_In, in_map_iff in H as ([id' m0] & Heq & Hin).
  simpl in Heq. injection Heq as -> <-.
  apply list_elem_of_In, list_elem_of_lookup in Hin as (i & Hi).
  destruct (Forall2_lookup_r _ _ _ _ _ Hl Hi) as (s & Hs & (m & Hm & Heq)).
  injection Heq as -> ->.
  rewrite Forall_forall in Hok.
  assert (Hsok : reviewer_recorded s)
    by (apply Hok, list_elem_of_lookup; eauto).
  unfold reviewer_recorded in *. simpl.
  destruct flag; simpl; exact Hsok.
Qed.

End StepFacts.

Section OperationSteps.

Variable env : Env.

Lemma reject_each_reviewer reviewer_id sugs ss :
  reject_each reviewer_id sugs = Ok ss -> Forall reviewer_recorded ss.
Proof.
  revert ss; induction sugs as [|[s|] sugs IH]; simpl; intros ss H.
  - injection H as <-. constructor.
  - destruct (reject_each reviewer_id sugs) as [done|e]; [|discriminate].
    injection H as <-. constructor; [|now apply IH].
    intros _. discriminate.
  - discriminate.
Qed.

Lemma reject_suggestions_step ids reviewer_id review_message st :
  let st' := snd (reject_suggestions env ids reviewer_id review_message st) in
  store_step st st'
  /\ scoring_store st' = scoring_store st /\ emails st' = emails st.
Proof.
  unfold reject_suggestions, mbind, M_bind, lift, raise.
  rewrite get_suggestions_by_ids_eq.
  destruct (reject_check _ _ _); simpl;
    [|split; [apply store_step_refl | auto]].
  destruct (negb _); simpl; [split; [apply store_step_refl | auto]|].
  destruct (reject_each _ _) as [ss|e'] eqn:Hss; simpl;
    [|split; [apply store_step_refl | auto]].
  destruct (update_suggestions_cases env ss true st)
    as [(e' & ->) | (l & Hl & _ & ->)]; simpl;
    [split; [apply store_step_refl | auto]|].
  split; [|auto].
  apply (store_step_updated st ss l true Hl).
  eapply reject_each_reviewer; exact Hss.
Qed.

Lemma resubmit_step id summary_message author_id change st :
  let st' := snd (resubmit_rejected_suggestion env id summary_message
                    author_id change st) in
  store_step st st'
  /\ scoring_store st' = scoring_store st /\ emails st' = emails st.
Proof.
  unfold resubmit_rejected_suggestion, mbind, M_bind, raise.
  rewrite get_suggestion_by_id_eq.
  destruct (negb _); simpl; [split; [apply store_step_refl | auto]|].
  destruct (option_map _ _) as [s|]; simpl;
    [|split; [apply store_step_refl | auto]].
  destruct (negb (is_handled s)); simpl;
    [split; [apply store_step_refl | auto]|].
  destruct (decide _); simpl; [split; [apply store_step_refl | auto]|].
  destruct (pre_update_validate env s change); simpl;
    [|split; [apply store_step_refl | auto]].
  unfold _update_suggestion.
  set (s' := set_suggestion_status_to_in_review _).
  destruct (update_suggestions_cases env [s'] true st)
    as [(e' & ->) | (l & Hl & _ & ->)]; simpl;
    [split; [apply store_step_refl | auto]|].
  split; [|auto].
  apply (store_step_updated st [s'] l true Hl).
  repeat constructor. intros Hne. now contradiction Hne.
Qed.

Lemma create_step ty tty tid v a c d st :
  let st' := snd (create_suggestion env ty tty tid v a c d st) in
  store_step st st'
  /\ scoring_store st' = scoring_store st /\ emails st' = emails st.
Proof.
  simpl.
  destruct (create_suggestion env ty tty tid v a c d st) as [[r|e] st'] eqn:H.
  - revert H.
    unfold create_suggestion, mbind, M_bind, create_thread, lift, raise,
      mret, M_ret, get_exploration_by_id, model_create, local, getitem,
      get_content_html, run_validate.
    set (st1 := with_threads _ st).
    repeat match goal with
           | |- context [decide ?P] => destruct (decide P)
           | |- context [match ?x !! ?k with _ => _ end] => destruct (x !! k)
           | |- context [if validate env ?s then _ else _] =>
               destruct (validate env s)
           end;
      try discriminate;
      rewrite get_suggestion_by_id_eq; intros [= _ <-]; simpl;
      (split; [|auto]);
      intros id m' Hm';
      unfold with_suggestions in Hm'; cbn [suggestion_store] in Hm';
      change (suggestion_store st1) with (suggestion_store st) in Hm';
      (destruct (decide (generate_thread_id env tty tid (threads st) = id))
         as [<-|Hne];
       [rewrite lookup_insert_eq in Hm'; injection Hm' as <-; right;
        intros Hs; now contradiction Hs
       |rewrite lookup_insert_ne in Hm' by exact Hne; now left]).
  - rewrite (create_suggestion_raise_state _ _ _ _ _ _ _ _ _ _ _ H). simpl.
    split; [apply store_step_same; reflexivity | auto].
Qed.

End OperationSteps.

Section AcceptStep.

Variable env : Env.

Lemma accept_step id reviewer_id commit_message review_message st :
  let st' := snd (accept_suggestion env id reviewer_id commit_message
                    review_message st) in
  store_step st st'
  /\ ((forall k r, scoring_store st !! k = Some r ->
                   (user_id r, us_score_category r) = k) ->
      scoring_step st st').
Proof.
  assert (Hrefl : store_step st st /\
            ((forall k r, scoring_store st !! k = Some r ->
                   (user_id r, us_score_category r) = k) ->
             scoring_step st st)).
  { split; [apply store_step_refl | intros _; left; auto]. }
  simpl.
  destruct (accept_suggestion env id reviewer_id commit_message
              review_message st) as [r st'] eqn:H.
  simpl. revert H.
  unfold accept_suggestion.
  destruct (_ || _); [now intros [= _ <-]|].
  unfold mbind at 1, M_bind at 1. rewrite get_suggestion_by_id_eq.
  destruct (option_map _ _) as [s|]; [|now intros [= _ <-]].
  destruct (is_handled s); [now intros [= _ <-]|].
  unfold mbind, M_bind, get_state, raise, mret, M_ret.
  destruct (pre_accept_validate env (explorations st) s); [|now intros [= _ <-]].
  destruct (bool_decide _); [now intros [= _ <-]|].
  unfold accept.
  set (s' := set_final_reviewer_id reviewer_id _).
  set (st1 := with_commits _ st).
  unfold _update_suggestion.
  destruct (update_suggestions_cases env [s'] true st1)
    as [(e' & ->) | (l & Hl & _ & ->)].
  { intros [= _ <-].
    split; [apply store_step_same; reflexivity | intros _; left; auto]. }
  unfold create_message.
  set (st3 := with_messages _ _).
  assert (Hstore : store_step st st3).
  { apply store_step_trans with st1; [apply store_step_same; reflexivity|].
    apply store_step_trans with (updated l true st1);
      [|apply store_step_same; reflexivity].
    apply (store_step_updated st1 [s'] l true Hl).
    repeat constructor. intros _. discriminate. }
  assert (Hsc : scoring_store st3 = scoring_store st) by reflexivity.
  assert (Hem : emails st3 = emails st) by reflexivity.
  clearbody st3. clear Hl l st1.
  destruct (ENABLE_RECORDING_OF_SCORES env).
  2:{ intros [= _ <-]. split; [exact Hstore | intros _; left; auto]. }
  unfold get_user_scoring, _update_user_scoring,
    send_mail_to_onboard_new_reviewers.
  set (k := (author_id s', score_category s')).
  rewrite Hsc.
  assert (Hleaf : forall (sent : bool) (rec' : UserContributionScoring) st2,
    suggestion_store st2 = suggestion_store st3 ->
    emails st2 = (if sent then emails st ++ [k] else emails st) ->
    ((forall k r, scoring_store st !! k = Some r ->
                  (user_id r, us_score_category r) = k) ->
     scoring_store st2 = <[k := rec']> (scoring_store st)
     /\ scoring_write (scoring_store st) k rec' sent) ->
    store_step st st2
    /\ ((forall k r, scoring_store st !! k = Some r ->
                     (user_id r, us_score_category r) = k) ->
        scoring_step st st2)).
  { intros sent rec' st2 E1 E3 Hw. split.
    - apply store_step_trans with st3;
        [exact Hstore | apply store_step_same; exact E1].
    - intros Hkeyed. destruct (Hw Hkeyed) as [E2 Hw'].
      right. exists k, rec', sent. auto. }
  destruct (scoring_store st !! k) as [rec|] eqn:Hk;
    (destruct (SEND_SUGGESTION_REVIEW_RELATED_EMAILS env);
     [destruct (_ && _) eqn:Hcond|]);
    cbv beta iota;
    match goal with
    | |- context [match ?x !! ?y with _ => _ end] => destruct (x !! y)
    end;
    intros [= _ <-].
  all: match goal with
       | |- context [with_scoring (insert ?k' ?r') (with_emails ?f ?s3)] =>
           apply (Hleaf true r'
                    (with_scoring (insert k' r') (with_emails f s3)))
       | |- context [with_scoring (insert ?k' ?r') ?s3] =>
           apply (Hleaf false r' (with_scoring (insert k' r') s3))
       end.
  all: try reflexivity.
  all: try (simpl; rewrite Hem; reflexivity).
  all: intros Hkeyed; simpl; rewrite Hsc;
       try rewrite (Hkeyed _ _ Hk);
       (split; [reflexivity|]);
       unfold scoring_write, email_sent_flag; rewrite Hk; simpl;
       (split; [try apply (Hkeyed _ _ Hk); reflexivity|]).
  all: try (apply andb_true_iff in Hcond as [_ Hflag]; simpl in Hflag;
            apply negb_true_iff in Hflag; rewrite Hflag).
  all: split; intros; try split; congruence.
Qed.

End AcceptStep.

(** ** Sequences of operations *)

Section Sequences.

Variable env : Env.

Lemma run_op_store_step o st : store_step st (run_op env o st).
Proof.
  destruct o; simpl.
  - apply create_step.
  - apply accept_step.
  - unfold reject_suggestion. apply reject_suggestions_step.
  - apply reject_suggestions_step.
  - apply resubmit_step.
Qed.

Lemma run_op_scoring_step o st :
  (forall k r, scoring_store st !! k = Some r ->
               (user_id r, us_score_category r) = k) ->
  scoring_step st (run_op env o st).
Proof.
  intros Hkeyed. destruct o; simpl.
  - left. apply create_step.
  - now apply accept_step.
  - left. unfold reject_suggestion. apply reject_suggestions_step.
  - left. apply reject_suggestions_step.
  - left. apply resubmit_step.
Qed.

Lemma lifecycle_invariant_step st st' :
  store_step st st' -> lifecycle_invariant st -> lifecycle_invariant st'.
Proof.
  intros Hstep Hinv id m Hm. destruct (Hstep _ _ Hm) as [Hold|Hok].
  - apply Hinv, Hold.
  - split; [|exact Hok]. unfold is_handled. apply bool_decide_eq_true.
Qed.

Lemma run_ops_snoc ops o st :
  run_ops env (ops ++ [o]) st = run_op env o (run_ops env ops st).
Proof. unfold run_ops. now rewrite foldl_snoc. Qed.

(** C1 (amended): from a state in which every stored suggestion satisfies
    it, after each operation of every sequence of lifecycle operations
    every stored suggestion satisfies: it is handled iff its status is not
    in-review, and if its status is not in-review then its final reviewer
    id is set. (The converse of the second part is not an invariant.) *)
Theorem lifecycle_invariant_preserved ops st :
  lifecycle_invariant st ->
  forall k, lifecycle_invariant (run_ops env (take k ops) st).
Proof.
  intros Hinv k. generalize (take k ops) as done. clear k ops.
  induction done as [|o done IH] using rev_ind; [exact Hinv|].
  rewrite run_ops_snoc.
  eapply lifecycle_invariant_step; [apply run_op_store_step | exact IH].
Qed.

Lemma notifications_app es k k' :
  notifications (es ++ [k']) k
  = (notifications es k + if decide (k' = k) then 1 else 0)%nat.
Proof.
  unfold notifications. rewrite filter_app, length_app. f_equal.
  rewrite filter_cons, filter_nil. destruct (decide (k' = k)); reflexivity.
Qed.

Lemma email_sent_flag_insert sc k r' k' :
  email_sent_flag (<[k := r']> sc) k'
  = if decide (k = k') then onboard_reviewer_email_sent r'
    else email_sent_flag sc k'.
Proof.
  unfold email_sent_flag. destruct (decide (k = k')) as [->|Hne].
  - now rewrite lookup_insert_eq.
  - now rewrite lookup_insert_ne.
Qed.

(** One step keeps the scoring invariant and never unsets a flag. *)
Lemma scoring_step_invariant st st' :
  scoring_step st st' ->
  scoring_invariant st ->
  scoring_invariant st'
  /\ (forall k, email_sent_flag (scoring_store st) k = true ->
                email_sent_flag (scoring_store st') k = true).
Proof.
  unfold scoring_invariant.
  intros [[-> ->] | (k & r' & sent & (Hkey & Hset & Hsent) & -> & ->)]
         [Hkeyed Hcount]; [split; [split|]; auto|].
  split; [split|].
  - intros k' r Hr. destruct (decide (k = k')) as [<-|Hne].
    + rewrite lookup_insert_eq in Hr. injection Hr as <-. exact Hkey.
    + rewrite lookup_insert_ne in Hr by exact Hne. now apply Hkeyed.
  - intros k'. specialize (Hcount k'). rewrite email_sent_flag_insert.
    destruct sent.
    + rewrite notifications_app.
      destruct (decide (k = k')) as [<-|Hne].
      * rewrite (Hsent eq_refl).
        destruct (email_sent_flag (scoring_store st) k) eqn:Hf;
          [destruct (Hset eq_refl); discriminate | lia].
      * lia.
    + destruct (decide (k = k')) as [<-|Hne]; [|exact Hcount].
      destruct (email_sent_flag (scoring_store st) k) eqn:Hf.
      * destruct (Hset eq_refl) as [-> _]. exact Hcount.
      * destruct (onboard_reviewer_email_sent r'); lia.
  - intros k' Hf. rewrite email_sent_flag_insert.
    destruct (decide (k = k')) as [<-|Hne]; [|exact Hf].
    now destruct (Hset Hf).
Qed.

(** C4: from a state in which the notifications dispatched so far agree
    with the sent-flags, after every sequence of lifecycle operations they
    still agree, a sent-flag that was set is still set, and every (user,
    category) pair has been sent at most one onboarding notification. *)
Theorem onboarding_email_at_most_once ops st :
  scoring_invariant st ->
  scoring_invariant (run_ops env ops st)
  /\ (forall k, email_sent_flag (scoring_store st) k = true ->
        email_sent_flag (scoring_store (run_ops env ops st)) k = true)
  /\ (forall k, (notifications (emails (run_ops env ops st)) k <= 1)%nat).
Proof.
  intros Hinv.
  assert (H : scoring_invariant (run_ops env ops st)
    /\ (forall k, email_sent_flag (scoring_store st) k = true ->
          email_sent_flag (scoring_store (run_ops env ops st)) k = true)).
  { induction ops as [|o ops IH] using rev_ind; [split; auto|].
    rewrite run_ops_snoc. destruct IH as [IHinv IHmono].
    destruct (scoring_step_invariant (run_ops env ops st)
                (run_op env o (run_ops env ops st))) as [Hinv' Hmono'].
    - apply run_op_scoring_step. apply IHinv.
    - exact IHinv.
    - split; [exact Hinv' | auto]. }
  destruct H as [Hinv' Hmono]. split; [exact Hinv' | split; [exact Hmono|]].
  intros k. destruct Hinv' as [_ Hcount]. specialize (Hcount k).
  destruct (email_sent_flag _ k); lia.
Qed.

End Sequences.

(** * The services on the example deployment *)

Module Runs.
Import Example.

Lemma st_in_review_lookup :
  suggestion_store st_in_review !! id0 = Some (model_with STATUS_IN_REVIEW None).
Proof. vm_compute. reflexivity. Qed.

(** Three acceptances keep alice at or above the threshold from the
    second on; one notification goes out. *)
Example three_accepts_one_email :
  emails (run_ops env0 three_accepts st0) = [("alice", "question.S")]
  /\ scoring_store (run_ops env0 three_accepts st0) !! ("alice", "question.S")
     = Some (mkScoring "alice" "question.S" 3 true).
Proof. vm_compute. split; reflexivity. Qed.

(** The example of the specification: submitting the current html of the
    exploration succeeds, submitting another html fails. *)
Example create_translation_example :
  is_ok (fst (create_suggestion env0 "translate_content" "exploration" "E" 1
                "alice" change_hi None st0)) = true
  /\ fst (create_suggestion env0 "translate_content" "exploration" "E" 1
            "alice" change_bye None st0) = Raise ContentHtmlMismatch.
Proof. vm_compute. split; reflexivity. Qed.

(** Counterexample to C1 as stated: after create, reject, resubmit the
    suggestion is in review and its final reviewer id is still set, so the
    three conditions are not equivalent for it. *)
Lemma resubmitted_in_review_with_reviewer :
  suggestion_store (run_ops env0 resubmit_sequence st0) !! id0
  = Some (model_with STATUS_IN_REVIEW (Some "bob"))
  /\ ~ (forall id m,
          suggestion_store (run_ops env0 resubmit_sequence st0) !! id = Some m ->
          handled_iff_reviewed (get_suggestion_from_model (id, m))).
Proof.
  assert (H : suggestion_store (run_ops env0 resubmit_sequence st0) !! id0
              = Some (model_with STATUS_IN_REVIEW (Some "bob")))
    by (vm_compute; reflexivity).
  split; [exact H|]. intros Hall.
  destruct (Hall _ _ H) as [_ [_ Hback]].
  apply Hback; [discriminate | reflexivity].
Qed.

(** Counterexample to C2 as stated: the only suggestion of the batch is
    stored and unhandled, yet with an empty review message the call raises
    and the suggestion does not become rejected. *)
Lemma reject_unhandled_batch_empty_message :
  Forall (unhandled_in st_in_review) [id0]
  /\ reject_suggestions env0 [id0] "bob" "" st_in_review
     = (Raise ReviewMessageEmpty, st_in_review)
  /\ option_map m_status (suggestion_store st_in_review !! id0)
     = Some STATUS_IN_REVIEW.
Proof.
  split; [|split].
  - repeat constructor. eexists. split; [apply st_in_review_lookup | reflexivity].
  - vm_compute. reflexivity.
  - vm_compute. reflexivity.
Qed.

(** Counterexample to C3 as stated: the suggestion is accepted, and
    accepting it again with an empty commit message fails with "commit
    message cannot be empty", which is not the already-handled failure. *)
Lemma accept_accepted_blank_commit_message :
  option_map m_status (suggestion_store st_accepted !! id0)
  = Some STATUS_ACCEPTED
  /\ accept_suggestion env0 id0 "bob" "" "thanks" st_accepted
     = (Raise CommitMessageEmpty, st_accepted)
  /\ error_kind CommitMessageEmpty <> Some KAlreadyHandled.
Proof.
  split; [|split].
  - vm_compute. reflexivity.
  - vm_compute. reflexivity.
  - discriminate.
Qed.

(** Counterexample to C8 as stated: a review message of one space is
    whitespace-only, yet [reject_suggestions] and [reject_suggestion]
    return and the suggestion is stored as rejected. *)
Lemma reject_whitespace_message_succeeds :
  PyStr.only_whitespace " " = true
  /\ fst (reject_suggestions env0 [id0] "bob" " " st_in_review) = Ok tt
  /\ option_map m_status
       (suggestion_store
          (snd (reject_suggestions env0 [id0] "bob" " " st_in_review)) !! id0)
     = Some STATUS_REJECTED
  /\ fst (reject_suggestion env0 id0 "bob" " " st_in_review) = Ok tt
  /\ option_map m_status
       (suggestion_store
          (snd (reject_suggestion env0 id0 "bob" " " st_in_review)) !! id0)
     = Some STATUS_REJECTED.
Proof. vm_compute. repeat split; reflexivity. Qed.

(** The failing input of C9: resubmitting an id that is not stored. *)
Example resubmit_missing_example :
  resubmit_rejected_suggestion env0 "missing" "second try" "alice" change_hi st0
  = (Raise (NoneAttributeError "is_handled"), st0)
  /\ error_kind (NoneAttributeError "is_handled") = None.
Proof. vm_compute. split; reflexivity. Qed.

End Runs.

(** * The theorems at concrete inputs *)

Module Witnesses.
Import Example.

Lemma lifecycle_invariant_preserved_witness :
  lifecycle_invariant st0
  /\ lifecycle_invariant (run_ops env0 (take 3 resubmit_sequence) st0).
Proof.
  assert (H0 : lifecycle_invariant st0).
  { intros id m H. simpl in H. rewrite lookup_empty in H. discriminate. }
  split; [exact H0|].
  apply (lifecycle_invariant_preserved env0 resubmit_sequence st0 H0 3%nat).
Defined.

Lemma reject_suggestions_all_or_nothing_witness :
  Forall (unhandled_in st_in_review) [id0]
  /\ "not yet" <> ""
  /\ exists st',
       reject_suggestions env0 [id0] "bob" "not yet" st_in_review = (Ok tt, st')
       /\ (forall id, id ∈ [id0] ->
             exists m m', suggestion_store st_in_review !! id = Some m
               /\ suggestion_store st' !! id = Some m'
               /\ m_status m' = STATUS_REJECTED
               /\ m_final_reviewer_id m' = Some "bob"
               /\ m_change_cmd m' = m_change_cmd m)
       /\ (forall id, id ∉ [id0] ->
             suggestion_store st' !! id = suggestion_store st_in_review !! id)
       /\ batch_writes st' = batch_writes st_in_review ++ [[id0]].
Proof.
  assert (Hgood : Forall (unhandled_in st_in_review) [id0]).
  { repeat constructor. exists (model_with STATUS_IN_REVIEW None).
    split; [vm_compute; reflexivity | reflexivity]. }
  assert (Hmsg : "not yet" <> "") by discriminate.
  split; [exact Hgood | split; [exact Hmsg|]].
  apply (proj1 (proj2 (reject_suggestions_all_or_nothing env0 st_in_review
                         [id0] "bob" "not yet")) Hgood Hmsg).
  intros id m _ _. reflexivity.
Defined.

Lemma accept_handled_fails_witness :
  suggestion_store st_accepted !! id0
  = Some (model_with STATUS_ACCEPTED (Some "bob"))
  /\ accept_suggestion env0 id0 "carol" "apply it again" "fine" st_accepted
     = (Raise (AlreadyHandledExn id0), st_accepted).
Proof.
  assert (Hm : suggestion_store st_accepted !! id0
               = Some (model_with STATUS_ACCEPTED (Some "bob")))
    by (vm_compute; reflexivity).
  split; [exact Hm|].
  apply (proj1 (accept_handled_fails env0 st_accepted id0 _ "carol"
                  "apply it again" "fine" Hm (or_introl eq_refl))).
Defined.

Lemma onboarding_email_at_most_once_witness :
  scoring_invariant st0
  /\ scoring_invariant (run_ops env0 three_accepts st0)
  /\ (forall k, email_sent_flag (scoring_store st0) k = true ->
        email_sent_flag (scoring_store (run_ops env0 three_accepts st0)) k = true)
  /\ (forall k, (notifications (emails (run_ops env0 three_accepts st0)) k <= 1)%nat).
Proof.
  assert (H0 : scoring_invariant st0).
  { split.
    - intros k r H. simpl in H. rewrite lookup_empty in H. discriminate.
    - intros k. unfold email_sent_flag. simpl. rewrite lookup_empty.
      unfold notifications. simpl. lia. }
  split; [exact H0|].
  apply (onboarding_email_at_most_once env0 three_accepts st0 H0).
Defined.

Lemma resubmit_rejected_keeps_reviewer_witness :
  suggestion_store st_rejected !! id0
  = Some (model_with STATUS_REJECTED (Some "bob"))
  /\ exists st' m',
       resubmit_rejected_suggestion env0 id0 "second try" "alice" change_bye
         st_rejected = (Ok tt, st')
       /\ suggestion_store st' !! id0 = Some m'
       /\ m_change_cmd m' = change_bye
       /\ m_status m' = STATUS_IN_REVIEW
       /\ m_final_reviewer_id m' = Some "bob".
Proof.
  assert (Hm : suggestion_store st_rejected !! id0
               = Some (model_with STATUS_REJECTED (Some "bob")))
    by (vm_compute; reflexivity).
  split; [exact Hm|].
  apply (resubmit_rejected_keeps_reviewer env0 st_rejected id0 _ "second try"
           "alice" change_bye Hm eq_refl);
    [discriminate | reflexivity | reflexivity].
Defined.

Lemma resubmit_accepted_fails_witness :
  suggestion_store st_accepted !! id0
  = Some (model_with STATUS_ACCEPTED (Some "bob"))
  /\ exists e,
       resubmit_rejected_suggestion env0 id0 "second try" "alice" change_bye
         st_accepted = (Raise e, st_accepted)
       /\ error_kind e = Some KPreconditionFailed
       /\ e = WasAcceptedExn id0.
Proof.
  assert (Hm : suggestion_store st_accepted !! id0
               = Some (model_with STATUS_ACCEPTED (Some "bob")))
    by (vm_compute; reflexivity).
  split; [exact Hm|].
  apply (resubmit_accepted_fails env0 st_accepted id0 _ "second try" "alice"
           change_bye Hm eq_refl).
Defined.

Lemma accept_blank_commit_message_fails_witness :
  PyStr.only_whitespace "   " = true
  /\ accept_suggestion env0 id0 "bob" "   " "thanks" st_in_review
     = (Raise CommitMessageEmpty, st_in_review).
Proof.
  split; [reflexivity|].
  apply (accept_blank_commit_message_fails env0 st_in_review id0 "bob" "   "
           "thanks" (or_intror eq_refl)).
Defined.

Lemma reject_empty_review_message_fails_witness :
  reject_suggestion env0 id0 "bob" "" st_in_review
  = (Raise ReviewMessageEmpty, st_in_review)
  /\ reject_suggestions env0 [id0; "missing"] "bob" "" st_in_review
     = (Raise (RejectDoesNotExist "missing"), st_in_review).
Proof.
  split.
  - destruct (proj2 (reject_empty_review_message_fails env0 st_in_review []
                       id0 "bob"))
      as (e & He & [(_ & -> & _) | [(Hn & _) | (m & Hm & Hs & _)]]).
    + exact He.
    + vm_compute in Hn. discriminate Hn.
    + vm_compute in Hm. injection Hm as <-. exfalso. apply Hs. reflexivity.
  - destruct (proj1 (reject_empty_review_message_fails env0 st_in_review
                       [id0; "missing"] id0 "bob"))
      as (e & He & [(HF & _) | (pre & id & rest & Heq & Hpre & Hoff)]).
    + exfalso. inversion HF as [|? ? _ HF']. inversion HF' as [|? ? Hm _].
      destruct Hm as (m & Hm & _). vm_compute in Hm. discriminate Hm.
    + destruct pre as [|p [|p' pre]]; simpl in Heq.
      * injection Heq as <- _. exfalso.
        destruct Hoff as [(Hn & _) | (m & Hm & Hs & _)].
        -- vm_compute in Hn. discriminate Hn.
        -- vm_compute in Hm. injection Hm as <-. apply Hs. reflexivity.
      * injection Heq as _ <- _.
        destruct Hoff as [(_ & -> & _) | (m & Hm & _)].
        -- exact He.
        -- vm_compute in Hm. discriminate Hm.
      * exfalso. injection Heq as _ _ Heq. destruct pre; discriminate Heq.
Defined.

Lemma resubmit_missing_is_attribute_error_witness :
  suggestion_store st0 !! "missing" = None
  /\ exists e,
       resubmit_rejected_suggestion env0 "missing" "second try" "alice"
         change_hi st0 = (Raise e, st0)
       /\ e = NoneAttributeError "is_handled"
       /\ error_kind e <> Some KNotFound.
Proof.
  assert (Hm : suggestion_store st0 !! "missing" = None)
    by (vm_compute; reflexivity).
  split; [exact Hm|].
  apply (resubmit_missing_is_attribute_error env0 st0 "missing" "second try"
           "alice" change_hi Hm).
Defined.

Lemma create_failure_keeps_thread_witness :
  create_suggestion env0 "translate_content" "exploration" "E" 1 "alice"
    change_bye None st0
  = (Raise ContentHtmlMismatch,
     with_threads (fun ts => ts ++ [opened_thread env0 "exploration" "E"
                                      "alice" None (threads st0)]) st0)
  /\ threads (with_threads (fun ts => ts ++ [opened_thread env0 "exploration"
                              "E" "alice" None (threads st0)]) st0)
     = threads st0 ++ [opened_thread env0 "exploration" "E" "alice" None
                         (threads st0)]
  /\ suggestion_store (with_threads (fun ts => ts ++ [opened_thread env0
                         "exploration" "E" "alice" None (threads st0)]) st0)
     = suggestion_store st0.
Proof.
  assert (H : create_suggestion env0 "translate_content" "exploration" "E" 1
                "alice" change_bye None st0
              = (Raise ContentHtmlMismatch,
                 with_threads (fun ts => ts ++ [opened_thread env0
                   "exploration" "E" "alice" None (threads st0)]) st0))
    by (vm_compute; reflexivity).
  split; [exact H|].
  destruct (create_failure_keeps_thread env0 _ _ _ _ _ _ _ _ _ _ H
              (or_intror eq_refl)) as (Ht & Hs & _ & _).
  split; [exact Ht | exact Hs].
Defined.

End Witnesses.

(** * Further properties of the services *)

(** ** What a batch update writes *)

Section UpdatedFacts.

Variable env : Env.

Lemma put_all_lookup_in (ms : list (string * SuggestionModel)) store id :
  id ∈ map fst ms ->
  exists x, put_all ms store !! id = Some x /\ (id, x) ∈ ms.
Proof.
  revert store; induction ms as [|[k m] ms IH]; intros store Hin.
  - inversion Hin.
  - rewrite put_all_cons. simpl.
    destruct (decide (id ∈ map fst ms)) as [Hlater|Hlater].
    + destruct (IH (<[k := m]> store) Hlater) as (x & Hx & Hmem).
      exists x. split; [exact Hx | now right].
    + rewrite put_all_lookup_notin by exact Hlater.
      simpl in Hin. apply elem_of_cons in Hin as [->|Hin]; [|contradiction].
      rewrite lookup_insert_eq. exists m. split; [reflexivity | left].
Qed.

Lemma written_ids store ss l :
  Forall2 (written store) ss l -> map fst l = map suggestion_id ss.
Proof.
  induction 1 as [|s im ss l (m & _ & ->) _ IH]; simpl; [reflexivity|].
  now rewrite IH.
Qed.

Lemma written_member store ss l id x :
  Forall2 (written store) ss l -> (id, x) ∈ l ->
  exists s m, s ∈ ss /\ suggestion_id s = id /\ store !! id = Some m
              /\ x = snd (copy_fields s (id, m)).
Proof.
  induction 1 as [|s im ss l (m & Hm & ->) _ IH]; intros Hin.
  - inversion Hin.
  - apply elem_of_cons in Hin as [Heq|Hin].
    + injection Heq as -> ->. exists s, m.
      split; [left | split; [reflexivity | split; [exact Hm | reflexivity]]].
    + destruct (IH Hin) as (s' & m' & Hs' & Hid & Hm' & Hx).
      exists s', m'. split; [now right | auto].
Qed.

(** After a batch update, a stored suggestion keeps its record unless the
    batch holds a suggestion with its id, whose fields it then carries; and
    no record appears under an id that had none. *)
Lemma updated_lookup_cases st ss l flag id :
  Forall2 (written (suggestion_store st)) ss l ->
  match suggestion_store st !! id with
  | None => suggestion_store (updated l flag st) !! id = None
  | Some m =>
      exists m', suggestion_store (updated l flag st) !! id = Some m' /\
        ((m' = m /\ id ∉ map suggestion_id ss) \/
         (exists s, s ∈ ss /\ suggestion_id s = id /\
                    m' = stamp flag (now st) (snd (copy_fields s (id, m)))))
  end.
Proof.
  intros Hl. unfold updated, with_suggestions. cbn [suggestion_store].
  set (l' := map _ l).
  assert (Hids : map fst l' = map suggestion_id ss).
  { unfold l'. rewrite map_fst_stamped. eapply written_ids; exact Hl. }
  destruct (decide (id ∈ map fst l')) as [Hin|Hnin].
  - destruct (put_all_lookup_in l' (suggestion_store st) id Hin)
      as (x & Hx & Hmem).
    apply list_elem_of_In, in_map_iff in Hmem as ([id' x'] & Heq & Hmem).
    simpl in Heq. injection Heq as -> <-.
    apply list_elem_of_In in Hmem.
    destruct (written_member _ _ _ _ _ Hl Hmem) as (s & m & Hs & Hid & Hm & ->).
    rewrite Hm. eexists. split; [exact Hx|]. right. exists s. auto.
  - rewrite put_all_lookup_notin by exact Hnin.
    destruct (suggestion_store st !! id) as [m|]; [|reflexivity].
    exists m. split; [reflexivity|]. left. split; [reflexivity|].
    now rewrite <- Hids.
Qed.

Lemma written_singleton store s l :
  Forall2 (written store) [s] l ->
  exists m, store !! suggestion_id s = Some m
            /\ l = [copy_fields s (suggestion_id s, m)].
Proof.
  intros H. inversion H as [|? im ? l' (m & Hm & ->) Hnil]; subst.
  inversion Hnil; subst. eauto.
Qed.

End UpdatedFacts.

(** ** The three transitions, evaluated *)

Section Evaluation.

Variable env : Env.

(** [_update_suggestion] on one suggestion. *)
Lemma update_suggestion_eval s st :
  _update_suggestion env s st
  = if validate env s then
      match suggestion_store st !! suggestion_id s with
      | Some m => (Ok tt, updated [copy_fields s (suggestion_id s, m)] true st)
      | None => (Raise (NoneAttributeError "status"), st)
      end
    else (Raise (ValidationError "validate"), st).
Proof.
  unfold _update_suggestion, _update_suggestions, mbind, M_bind, lift,
    get_multi, put_multi.
  simpl. unfold run_validate.
  destruct (validate env s); [|reflexivity].
  simpl. unfold fetch.
  destruct (suggestion_store st !! suggestion_id s); reflexivity.
Qed.

(** The scoring block of [accept_suggestion]. *)
Lemma scoring_block_eval u c st :
  (if ENABLE_RECORDING_OF_SCORES env then
     user_scoring ← get_user_scoring u c;
     user_scoring ←
       (if SEND_SUGGESTION_REVIEW_RELATED_EMAILS env then
          if can_user_review_category env
               (increment_score (INCREMENT_SCORE_OF_AUTHOR_BY env) user_scoring)
             && negb (onboard_reviewer_email_sent
                        (increment_score (INCREMENT_SCORE_OF_AUTHOR_BY env)
                           user_scoring))
          then
            send_mail_to_onboard_new_reviewers u c;;
            mret (mark_onboarding_email_as_sent
                    (increment_score (INCREMENT_SCORE_OF_AUTHOR_BY env)
                       user_scoring))
          else mret (increment_score (INCREMENT_SCORE_OF_AUTHOR_BY env)
                       user_scoring)
        else mret (increment_score (INCREMENT_SCORE_OF_AUTHOR_BY env)
                     user_scoring));
     _update_user_scoring user_scoring
   else mret tt) st
  = (Ok tt, scored env u c st).
Proof.
  unfold scored, scoring_of.
  destruct (ENABLE_RECORDING_OF_SCORES env); [|reflexivity].
  unfold mbind, M_bind, get_user_scoring, _update_user_scoring,
    send_mail_to_onboard_new_reviewers, mret, M_ret.
  destruct (scoring_store st !! (u, c)) as [r|];
    (destruct (SEND_SUGGESTION_REVIEW_RELATED_EMAILS env);
     [destruct (_ && _)|]);
    cbv beta iota; simpl;
    repeat match goal with
           | |- context [match ?x !! ?y with _ => _ end] => destruct (x !! y)
           end;
    reflexivity.
Qed.

(** [accept_suggestion] on a stored suggestion in review, with a commit
    message that is not blank. *)
Lemma accept_suggestion_eval id reviewer_id commit_message review_message st m :
  suggestion_store st !! id = Some m ->
  m_status m = STATUS_IN_REVIEW ->
  PyStr.only_whitespace commit_message = false ->
  accept_suggestion env id reviewer_id commit_message review_message st
  = let s0 := get_suggestion_from_model (id, m) in
    let s := accepted_by reviewer_id (id, m) in
    if negb (pre_accept_validate env (explorations st) s0)
    then (Raise (ValidationError "pre_accept_validate"), st)
    else if bool_decide
              (0 < length (validate_math_tags_in_html_with_attribute_math_content
                             env (PyStr.join
                                    (get_all_html_content_strings env s0))))%nat
    then (Raise (InvalidMathTags id), st)
    else if validate env s
    then (Ok tt, accepted_state env id reviewer_id commit_message
                   review_message m st)
    else (Raise (ValidationError "validate"),
          with_commits (fun cs => cs ++
            [(target_id s, change s,
              get_commit_message_for_suggestion env
                (get_username env (author_id s)) commit_message)]) st).
Proof.
  intros Hm Hs Hcm.
  unfold accept_suggestion. rewrite PyStrFacts.blank_guard, Hcm.
  unfold mbind at 1, M_bind at 1.
  rewrite get_suggestion_by_id_eq, (fetch_present _ _ _ Hm).
  cbn [option_map].
  unfold is_handled. cbn [status get_suggestion_from_model snd fst].
  rewrite Hs. rewrite bool_decide_false by (intros H; now apply H).
  unfold mbind at 1, M_bind at 1, get_state.
  cbv zeta.
  destruct (pre_accept_validate env (explorations st) _) eqn:Hpre;
    [|reflexivity].
  unfold mbind at 1, M_bind at 1, mret at 1, M_ret at 1.
  cbn [negb].
  destruct (bool_decide _); [reflexivity|].
  unfold mbind at 1, M_bind at 1, accept.
  unfold mbind at 1, M_bind at 1.
  match goal with
  | |- context [_update_suggestion env ?s ?st1] =>
      let H := fresh in
      pose proof (update_suggestion_eval s st1) as H; rewrite H; clear H
  end.
  fold (accepted_by reviewer_id (id, m)).
  destruct (validate env (accepted_by reviewer_id (id, m))); [|reflexivity].
  cbn [suggestion_store with_commits suggestion_id accepted_by
       set_final_reviewer_id set_suggestion_status_to_accepted set_status
       get_suggestion_from_model fst snd].
  rewrite Hm.
  unfold mbind at 1, M_bind at 1, create_message.
  unfold accepted_state. apply scoring_block_eval.
Qed.

(** [resubmit_rejected_suggestion] on a stored rejected suggestion, with a
    summary message that is not empty. *)
Lemma resubmit_eval id summary_message author_id change st m :
  suggestion_store st !! id = Some m ->
  m_status m = STATUS_REJECTED ->
  summary_message <> "" ->
  resubmit_rejected_suggestion env id summary_message author_id change st
  = let s := resubmitted_with change (id, m) in
    if negb (pre_update_validate env (get_suggestion_from_model (id, m)) change)
    then (Raise (ValidationError "pre_update_validate"), st)
    else if validate env s
    then (Ok tt,
          with_messages (fun ms => ms ++
              [mkMessage id author_id STATUS_CHOICES_OPEN None summary_message])
            (updated [copy_fields s (id, m)] true st))
    else (Raise (ValidationError "validate"), st).
Proof.
  intros Hm Hs Hsum.
  unfold resubmit_rejected_suggestion, mbind at 1, M_bind at 1.
  rewrite get_suggestion_by_id_eq, (fetch_present _ _ _ Hm).
  cbn [option_map]. rewrite (PyStrFacts.truthy_nonempty _ Hsum). cbn [negb].
  unfold is_handled. cbn [status get_suggestion_from_model snd fst].
  rewrite Hs. rewrite bool_decide_true by discriminate. cbn [negb].
  destruct (decide (STATUS_REJECTED = STATUS_ACCEPTED)); [discriminate|].
  destruct (pre_update_validate env _ change); [|reflexivity].
  cbn [negb].
  unfold mbind, M_bind, mret, M_ret.
  match goal with
  | |- context [_update_suggestion env ?s ?st1] =>
      let H := fresh in
      pose proof (update_suggestion_eval s st1) as H; rewrite H; clear H
  end.
  fold (resubmitted_with change (id, m)).
  destruct (validate env (resubmitted_with change (id, m))); [|reflexivity].
  cbn [suggestion_id resubmitted_with set_suggestion_status_to_in_review
       set_status set_change get_suggestion_from_model fst snd].
  rewrite Hm. reflexivity.
Qed.

End Evaluation.

Section Outcomes.

Variable env : Env.

Lemma truthy_not_empty s : PyStr.truthy s = true -> s <> "".
Proof. destruct s; [discriminate | discriminate]. Qed.

(** Every outcome of [reject_suggestions]. *)
Lemma reject_suggestions_cases ids reviewer_id review_message st r st' :
  reject_suggestions env ids reviewer_id review_message st = (r, st') ->
  (exists e, r = Raise e /\ st' = st) \/
  (r = Ok tt /\ Forall (unhandled_in st) ids /\ review_message <> "" /\
   exists l, rejected_batch st reviewer_id ids l
             /\ st' = rejected_state ids reviewer_id review_message l st).
Proof.
  unfold reject_suggestions, mbind, M_bind, lift, raise.
  rewrite get_suggestions_by_ids_eq.
  destruct (reject_check_cases st [] ids)
    as [[Hok Hgood] | (e & id & He & _ & _)]; simpl in *.
  2:{ rewrite He. intros [= <- <-]. left. eauto. }
  rewrite Hok.
  destruct (PyStr.truthy review_message) eqn:Hmsg; simpl;
    [|intros [= <- <-]; left; eauto].
  destruct (reject_each_unhandled st reviewer_id ids Hgood) as (ss & Hss & HR).
  rewrite Hss.
  destruct (update_suggestions_cases env ss true st)
    as [(e' & ->) | (l & Hl & _ & ->)]; [intros [= <- <-]; left; eauto|].
  unfold create_messages. intros [= <- <-]. right.
  split; [reflexivity|]. split; [exact Hgood|].
  split; [now apply truthy_not_empty|].
  exists l. split; [|reflexivity].
  eapply rejected_batch_written; [exact HR | exact Hl].
Qed.

(** [reject_suggestions] returns on a batch of stored suggestions in
    review, with a review message that is not empty, when the rejected
    suggestions pass the entity validation. *)
Lemma reject_suggestions_returns ids reviewer_id review_message st :
  Forall (unhandled_in st) ids ->
  review_message <> "" ->
  (forall id m, id ∈ ids -> suggestion_store st !! id = Some m ->
                validate env (rejected_by reviewer_id (id, m)) = true) ->
  exists l, rejected_batch st reviewer_id ids l
    /\ reject_suggestions env ids reviewer_id review_message st
       = (Ok tt, rejected_state ids reviewer_id review_message l st).
Proof.
  intros Hgood Hmsg Hval.
  destruct (reject_check_cases st [] ids)
    as [[Hok _] | (e & id & _ & Hin & Hoff)].
  2:{ exfalso. eapply offends_not_unhandled; [exact Hoff|].
      rewrite Forall_forall in Hgood. apply Hgood. exact Hin. }
  destruct (reject_each_unhandled st reviewer_id ids Hgood) as (ss & Hss & HR).
  assert (Hvalid : Forall (fun s => validate env s = true) ss).
  { clear Hss Hok Hgood.
    induction HR as [|id s ids' ss' (m & Hm & ->) _ IH]; constructor.
    - apply Hval; [left | exact Hm].
    - apply IH. intros id' m' Hin. apply Hval. now right. }
  assert (Hpresent :
    Forall (fun s => is_Some (suggestion_store st !! suggestion_id s)) ss).
  { clear Hss Hval Hok Hgood Hvalid.
    induction HR as [|id s ids' ss' (m & Hm & ->) _ IH]; constructor.
    - simpl. rewrite Hm. eauto.
    - exact IH. }
  destruct (update_suggestions_ok env ss true st Hvalid Hpresent)
    as (l & Hl & Hupd).
  exists l. split; [eapply rejected_batch_written; [exact HR | exact Hl]|].
  unfold reject_suggestions, mbind, M_bind, lift.
  rewrite get_suggestions_by_ids_eq. simpl in Hok. rewrite Hok.
  rewrite (PyStrFacts.truthy_nonempty _ Hmsg). simpl.
  rewrite Hss, Hupd. reflexivity.
Qed.

(** The suggestions a rejected batch wrote. *)
Lemma rejected_batch_lookup st reviewer_id ids l id :
  rejected_batch st reviewer_id ids l ->
  match suggestion_store st !! id with
  | None => suggestion_store (updated l true st) !! id = None
  | Some m =>
      suggestion_store (updated l true st) !! id
      = Some (if bool_decide (id ∈ ids)
              then model_update STATUS_REJECTED (Some reviewer_id)
                     (m_change_cmd m) (now st) m
              else m)
  end.
Proof.
  intros Hb. unfold updated, with_suggestions. cbn [suggestion_store].
  assert (Hids : map fst l = ids) by (eapply batch_ids; exact Hb).
  destruct (decide (id ∈ ids)) as [Hin|Hnin].
  - rewrite bool_decide_true by exact Hin.
    assert (Hin' : id ∈ map fst (map (fun im => (fst im,
                      stamp true (now st) (snd im))) l))
      by (rewrite map_fst_stamped, Hids; exact Hin).
    destruct (put_all_lookup_in _ (suggestion_store st) id Hin')
      as (x & Hx & Hmem).
    apply list_elem_of_In, in_map_iff in Hmem as ([id' x'] & Heq & Hmem).
    simpl in Heq. injection Heq as -> <-.
    apply list_elem_of_In in Hmem.
    destruct (batch_member _ _ _ _ _ _ Hb Hmem) as (m & Hm & Heq).
    rewrite Hm, Hx. apply (f_equal snd) in Heq. simpl in Heq.
    rewrite Heq. reflexivity.
  - rewrite bool_decide_false by exact Hnin.
    rewrite put_all_lookup_notin
      by (rewrite map_fst_stamped, Hids; exact Hnin).
    destruct (suggestion_store st !! id); reflexivity.
Qed.

(** The guards of [accept_suggestion] that come before the suggestion is
    looked at. *)
Lemma accept_suggestion_refused id reviewer_id commit_message review_message st :
  PyStr.only_whitespace commit_message = true \/
  suggestion_store st !! id = None \/
  (exists m, suggestion_store st !! id = Some m
             /\ m_status m <> STATUS_IN_REVIEW) ->
  accept_suggestion env id reviewer_id commit_message review_message st
  = (Raise (if PyStr.only_whitespace commit_message then CommitMessageEmpty
            else match suggestion_store st !! id with
                 | None => AcceptDoesNotExist id
                 | Some _ => AlreadyHandledExn id
                 end), st).
Proof.
  intros H. unfold accept_suggestion. rewrite PyStrFacts.blank_guard.
  destruct (PyStr.only_whitespace commit_message); [reflexivity|].
  unfold mbind, M_bind. rewrite get_suggestion_by_id_eq.
  destruct H as [H | [H | (m & Hm & Hs)]]; [discriminate| |].
  - rewrite (fetch_absent _ _ H), H. reflexivity.
  - rewrite (fetch_present _ _ _ Hm), Hm. simpl.
    unfold is_handled. simpl. now rewrite bool_decide_true.
Qed.

(** Every outcome of [accept_suggestion]. *)
Lemma accept_suggestion_cases id reviewer_id commit_message review_message
    st r st' :
  accept_suggestion env id reviewer_id commit_message review_message st
    = (r, st') ->
  (exists e, r = Raise e /\ st' = st) \/
  (exists m, suggestion_store st !! id = Some m
     /\ m_status m = STATUS_IN_REVIEW
     /\ PyStr.only_whitespace commit_message = false
     /\ ((r = Raise (ValidationError "validate")
          /\ validate env (accepted_by reviewer_id (id, m)) = false
          /\ st' = with_commits (fun cs => cs ++
                     [(m_target_id m, m_change_cmd m,
                       get_commit_message_for_suggestion env
                         (get_username env (m_author_id m)) commit_message)]) st)
         \/ (r = Ok tt
             /\ st' = accepted_state env id reviewer_id commit_message
                        review_message m st))).
Proof.
  destruct (PyStr.only_whitespace commit_message) eqn:Hcm.
  { rewrite accept_suggestion_refused by (left; exact Hcm). rewrite Hcm.
    intros [= <- <-]. left. eauto. }
  destruct (suggestion_store st !! id) as [m|] eqn:Hm.
  2:{ rewrite accept_suggestion_refused by (right; left; exact Hm).
      intros [= <- <-]. left. eauto. }
  destruct (decide (m_status m = STATUS_IN_REVIEW)) as [Hs|Hs].
  2:{ rewrite accept_suggestion_refused by (right; right; eauto).
      intros [= <- <-]. left. eauto. }
  rewrite (accept_suggestion_eval env _ _ _ _ _ _ Hm Hs Hcm). cbv zeta.
  destruct (negb _); [intros [= <- <-]; left; eauto|].
  destruct (bool_decide _); [intros [= <- <-]; left; eauto|].
  destruct (validate env _) eqn:Hv; intros [= <- <-]; right;
    exists m; (split; [reflexivity|]); (split; [exact Hs|]);
    (split; [reflexivity|]); [right | left]; auto.
Qed.

(** Every outcome of [resubmit_rejected_suggestion]. *)
Lemma resubmit_cases id summary_message author_id change st r st' :
  resubmit_rejected_suggestion env id summary_message author_id change st
    = (r, st') ->
  (exists e, r = Raise e /\ st' = st) \/
  (exists m, suggestion_store st !! id = Some m
     /\ m_status m = STATUS_REJECTED
     /\ summary_message <> ""
     /\ r = Ok tt
     /\ st' = with_messages (fun ms => ms ++
                [mkMessage id author_id STATUS_CHOICES_OPEN None
                   summary_message])
              (updated [copy_fields (resubmitted_with change (id, m)) (id, m)]
                 true st)).
Proof.
  destruct (PyStr.truthy summary_message) eqn:Hsum.
  2:{ unfold resubmit_rejected_suggestion, mbind, M_bind.
      rewrite get_suggestion_by_id_eq, Hsum. intros [= <- <-]. left. eauto. }
  destruct (suggestion_store st !! id) as [m|] eqn:Hm.
  2:{ unfold resubmit_rejected_suggestion, mbind, M_bind.
      rewrite get_suggestion_by_id_eq, Hsum, (fetch_absent _ _ Hm).
      intros [= <- <-]. left. eauto. }
  destruct (decide (m_status m = STATUS_REJECTED)) as [Hs|Hs].
  - rewrite (resubmit_eval env _ _ _ _ _ _ Hm Hs (truthy_not_empty _ Hsum)).
    cbv zeta.
    destruct (negb _); [intros [= <- <-]; left; eauto|].
    destruct (validate env _); intros [= <- <-]; [right | left; eauto].
    exists m. split; [reflexivity|]. split; [exact Hs|].
    split; [now apply truthy_not_empty | auto].
  - unfold resubmit_rejected_suggestion, mbind, M_bind.
    rewrite get_suggestion_by_id_eq, Hsum, (fetch_present _ _ _ Hm). simpl.
    unfold is_handled. simpl.
    destruct (m_status m) eqn:Hst; simpl;
      try (intros [= <- <-]; left; eauto).
    contradiction.
Qed.

End Outcomes.

(** ** Creation, in full *)

Section CreateOutcomes.

Variable env : Env.

(** X1: when [create_suggestion] returns, it returns the suggestion it has
    just stored under the id of the thread it opened: in review, without a
    final reviewer, with the given author, change, type and target; looking
    that id up again gives the same suggestion, and no other stored
    suggestion has changed. *)
Theorem create_suggestion_returns_stored
    suggestion_type target_type target_id version author_id change
    description st r st' :
  create_suggestion env suggestion_type target_type target_id version
    author_id change description st = (Ok r, st') ->
  exists s,
    r = Some s
    /\ suggestion_id s = generate_thread_id env target_type target_id (threads st)
    /\ status s = STATUS_IN_REVIEW
    /\ final_reviewer_id s = None
    /\ creation_fields s = (suggestion_type, target_id, version, author_id, change)
    /\ get_suggestion_by_id (suggestion_id s) st' = (Ok (Some s), st')
    /\ threads st' = threads st ++ [opened_thread env target_type target_id
                                      author_id description (threads st)]
    /\ (forall id, id <> suggestion_id s ->
          suggestion_store st' !! id = suggestion_store st !! id).
Proof.
  unfold create_suggestion, mbind, M_bind, create_thread, lift, raise,
    mret, M_ret, get_exploration_by_id, model_create, local, getitem,
    get_content_html, run_validate.
  set (st1 := with_threads _ st).
  set (tid := generate_thread_id env target_type target_id (threads st)).
  repeat match goal with
         | |- context [decide ?P] => destruct (decide P)
         | |- context [match ?x !! ?k with _ => _ end] => destruct (x !! k)
         | |- context [if validate env ?s then _ else _] =>
             destruct (validate env s)
         end;
    try discriminate;
    rewrite get_suggestion_by_id_eq; intros [= <- <-];
    unfold with_suggestions; cbn [suggestion_store];
    unfold fetch; rewrite lookup_insert_eq; cbn [option_map];
    (eexists; split; [reflexivity|]);
    (repeat split; try reflexivity);
    try (rewrite get_suggestion_by_id_eq; cbn [suggestion_store];
         unfold fetch; cbn [suggestion_id get_suggestion_from_model fst snd];
         rewrite lookup_insert_eq; reflexivity);
    intros id Hne; cbn [suggestion_id get_suggestion_from_model fst snd] in Hne;
    rewrite lookup_insert_ne by (intros Heq; apply Hne; now rewrite Heq);
    reflexivity.
Qed.

(** X2: the score category of a created suggestion. For an edit of state
    content it is the content score type, the delimiter and the category of
    the target exploration; for a translation it is the translation score
    type with the same category, and the html given in the change is the
    html the exploration holds for the named state and content id; for a
    question it is the question score type, the delimiter and the target
    id. No other suggestion type is ever created. *)
Theorem create_suggestion_score_category
    suggestion_type target_type target_id version author_id change
    description st s st' :
  create_suggestion env suggestion_type target_type target_id version
    author_id change description st = (Ok (Some s), st') ->
  (suggestion_type = SUGGESTION_TYPE_EDIT_STATE_CONTENT env /\
   exists e, target_type = TARGET_TYPE_EXPLORATION env
     /\ explorations st !! target_id = Some e
     /\ score_category s = SCORE_TYPE_CONTENT env +:+
          SCORE_CATEGORY_DELIMITER env +:+ category e)
  \/ (suggestion_type <> SUGGESTION_TYPE_EDIT_STATE_CONTENT env /\
      suggestion_type = SUGGESTION_TYPE_TRANSLATE_CONTENT env /\
      exists e state_name content_id html,
        target_type = TARGET_TYPE_EXPLORATION env
        /\ explorations st !! target_id = Some e
        /\ score_category s = SCORE_TYPE_TRANSLATION env +:+
             SCORE_CATEGORY_DELIMITER env +:+ category e
        /\ change !! "state_name" = Some state_name
        /\ change !! "content_id" = Some content_id
        /\ change !! "content_html" = Some html
        /\ content_html_of e !! (state_name, content_id) = Some html)
  \/ (suggestion_type <> SUGGESTION_TYPE_EDIT_STATE_CONTENT env /\
      suggestion_type <> SUGGESTION_TYPE_TRANSLATE_CONTENT env /\
      suggestion_type = SUGGESTION_TYPE_ADD_QUESTION env /\
      score_category s = SCORE_TYPE_QUESTION env +:+
        SCORE_CATEGORY_DELIMITER env +:+ target_id).
Proof.
  unfold create_suggestion, mbind, M_bind, create_thread, lift, raise,
    mret, M_ret, get_exploration_by_id, model_create, local, getitem,
    get_content_html, run_validate.
  set (st1 := with_threads _ st).
  destruct (decide (target_type = TARGET_TYPE_EXPLORATION env)) as [Htt|Htt];
    [destruct (explorations st1 !! target_id) as [e|] eqn:He;
       [change (explorations st !! target_id = Some e) in He
       |cbv beta iota; discriminate]|];
    (destruct (decide (suggestion_type = SUGGESTION_TYPE_EDIT_STATE_CONTENT env))
       as [Hty1|Hty1];
     [|destruct (decide (suggestion_type = SUGGESTION_TYPE_TRANSLATE_CONTENT env))
         as [Hty2|Hty2];
       [|destruct (decide (suggestion_type = SUGGESTION_TYPE_ADD_QUESTION env))
           as [Hty3|Hty3]]]);
    try discriminate.
  - destruct (validate env _); [|discriminate].
    rewrite get_suggestion_by_id_eq. unfold with_suggestions, fetch.
    cbn [suggestion_store]. rewrite lookup_insert_eq. intros [= <- _].
    left. split; [exact Hty1|]. exists e. auto.
  - destruct (change !! "state_name") as [sn|] eqn:Hsn; [|discriminate].
    destruct (change !! "content_id") as [cid|] eqn:Hcid; [|discriminate].
    destruct (content_html_of e !! (sn, cid)) as [html|] eqn:Hhtml;
      [|discriminate].
    destruct (change !! "content_html") as [given|] eqn:Hgiven; [|discriminate].
    destruct (decide (html <> given)) as [Hne|Heq]; [discriminate|].
    assert (html = given) as <-
      by (destruct (decide (html = given)); [assumption | contradiction]).
    destruct (validate env _); [|discriminate].
    rewrite get_suggestion_by_id_eq. unfold with_suggestions, fetch.
    cbn [suggestion_store]. rewrite lookup_insert_eq. intros [= <- _].
    right. left. split; [exact Hty1|]. split; [exact Hty2|].
    exists e, sn, cid, html. repeat split; auto.
  - destruct (validate env _); [|discriminate].
    rewrite get_suggestion_by_id_eq. unfold with_suggestions, fetch.
    cbn [suggestion_store]. rewrite lookup_insert_eq. intros [= <- _].
    right. right. auto.
  - destruct (validate env _); [|discriminate].
    rewrite get_suggestion_by_id_eq. unfold with_suggestions, fetch.
    cbn [suggestion_store]. rewrite lookup_insert_eq. intros [= <- _].
    right. right. auto.
Qed.

(** X3: a suggestion that edits or translates state content but whose
    target type is not the exploration one makes [create_suggestion] read
    the local [exploration] before it was ever assigned: the call dies with
    an UnboundLocalError, which is none of the failures of the taxonomy,
    after the thread has been opened. *)
Theorem create_suggestion_unbound_exploration
    suggestion_type target_type target_id version author_id change
    description st :
  target_type <> TARGET_TYPE_EXPLORATION env ->
  suggestion_type = SUGGESTION_TYPE_EDIT_STATE_CONTENT env \/
  suggestion_type = SUGGESTION_TYPE_TRANSLATE_CONTENT env ->
  create_suggestion env suggestion_type target_type target_id version
    author_id change description st
  = (Raise (UnboundLocalError "exploration"),
     with_threads (fun ts => ts ++ [opened_thread env target_type target_id
                                      author_id description (threads st)]) st)
  /\ error_kind (UnboundLocalError "exploration") = None.
Proof.
  intros Htt Hty. split; [|reflexivity].
  unfold create_suggestion, mbind, M_bind, create_thread, lift, raise,
    mret, M_ret, local, opened_thread.
  destruct (decide (target_type = TARGET_TYPE_EXPLORATION env));
    [contradiction|].
  destruct (decide (suggestion_type = SUGGESTION_TYPE_EDIT_STATE_CONTENT env));
    [reflexivity|].
  destruct (decide (suggestion_type = SUGGESTION_TYPE_TRANSLATE_CONTENT env));
    [reflexivity|].
  destruct Hty; contradiction.
Qed.

End CreateOutcomes.

(** ** Acceptance, in full *)

Section AcceptOutcomes.

Variable env : Env.

Lemma accepted_state_store id reviewer_id commit_message review_message m st :
  suggestion_store (accepted_state env id reviewer_id commit_message
                      review_message m st)
  = <[id := model_update STATUS_ACCEPTED (Some reviewer_id) (m_change_cmd m)
              (now st) m]> (suggestion_store st).
Proof.
  unfold accepted_state, scored.
  destruct (ENABLE_RECORDING_OF_SCORES env); [|reflexivity].
  cbv zeta. destruct (_ && _); reflexivity.
Qed.

Lemma accepted_state_logs id reviewer_id commit_message review_message m st :
  let st' := accepted_state env id reviewer_id commit_message review_message
               m st in
  commits st' = commits st ++
    [(m_target_id m, m_change_cmd m,
      COMMIT_MESSAGE_ACCEPTED_SUGGESTION_PREFIX env +:+ " " +:+
      get_username env (m_author_id m) +:+ ": " +:+ commit_message)]
  /\ messages st' = messages st ++
       [mkMessage id reviewer_id STATUS_CHOICES_FIXED None review_message]
  /\ batch_writes st' = batch_writes st ++ [[id]]
  /\ threads st' = threads st.
Proof.
  unfold accepted_state, scored.
  destruct (ENABLE_RECORDING_OF_SCORES env);
    [cbv zeta; destruct (_ && _)|]; repeat split.
Qed.

(** X4: accepting a stored suggestion in review, with a commit message
    that is not blank, when the pre-accept validation passes, the markup
    validator finds nothing and the accepted suggestion passes the entity
    validation: the call returns; the suggestion is stored as accepted with
    the reviewer as final reviewer and its other fields as before; the
    change went to the target content once, with the commit message
    "<prefix> <author's name>: <commit message>"; one message with status
    fixed was posted to the thread; the store saw one batch write. *)
Theorem accept_suggestion_accepts
    id reviewer_id commit_message review_message st m :
  suggestion_store st !! id = Some m ->
  m_status m = STATUS_IN_REVIEW ->
  PyStr.only_whitespace commit_message = false ->
  pre_accept_validate env (explorations st)
    (get_suggestion_from_model (id, m)) = true ->
  validate_math_tags_in_html_with_attribute_math_content env
    (PyStr.join (get_all_html_content_strings env
                   (get_suggestion_from_model (id, m)))) = [] ->
  validate env (accepted_by reviewer_id (id, m)) = true ->
  exists st',
    accept_suggestion env id reviewer_id commit_message review_message st
      = (Ok tt, st')
    /\ suggestion_store st'
       = <[id := model_update STATUS_ACCEPTED (Some reviewer_id)
                   (m_change_cmd m) (now st) m]> (suggestion_store st)
    /\ commits st' = commits st ++
         [(m_target_id m, m_change_cmd m,
           COMMIT_MESSAGE_ACCEPTED_SUGGESTION_PREFIX env +:+ " " +:+
           get_username env (m_author_id m) +:+ ": " +:+ commit_message)]
    /\ messages st' = messages st ++
         [mkMessage id reviewer_id STATUS_CHOICES_FIXED None review_message]
    /\ batch_writes st' = batch_writes st ++ [[id]]
    /\ threads st' = threads st.
Proof.
  intros Hm Hs Hcm Hpre Hmath Hval.
  rewrite (accept_suggestion_eval env _ _ _ _ _ _ Hm Hs Hcm). cbv zeta.
  rewrite Hpre, Hmath, Hval. cbn [negb length].
  rewrite bool_decide_false by lia.
  eexists. split; [reflexivity|].
  split; [apply accepted_state_store | apply accepted_state_logs].
Qed.

(** X5: accepting an id under which nothing is stored, with a commit
    message that is not blank, raises "You cannot accept the suggestion
    with id ... because it does not exist." (a not-found failure) and
    leaves the state unchanged. *)
Theorem accept_suggestion_missing id reviewer_id commit_message review_message st :
  suggestion_store st !! id = None ->
  PyStr.only_whitespace commit_message = false ->
  accept_suggestion env id reviewer_id commit_message review_message st
    = (Raise (AcceptDoesNotExist id), st)
  /\ error_kind (AcceptDoesNotExist id) = Some KNotFound
  /\ exn_message (AcceptDoesNotExist id)
     = Some ("You cannot accept the suggestion with id " +:+ id +:+
             " because it does not exist.").
Proof.
  intros Hm Hcm. split; [|split; reflexivity].
  rewrite accept_suggestion_refused by (right; left; exact Hm).
  now rewrite Hcm, Hm.
Qed.

(** X6: when the pre-accept validation of a stored suggestion in review
    fails, or the markup validator reports an error in its html, accepting
    it raises and leaves the whole state unchanged: the suggestion is still
    in review and nothing was handed to the target content. *)
Theorem accept_suggestion_invalid_untouched
    id reviewer_id commit_message review_message st m :
  suggestion_store st !! id = Some m ->
  m_status m = STATUS_IN_REVIEW ->
  PyStr.only_whitespace commit_message = false ->
  pre_accept_validate env (explorations st)
    (get_suggestion_from_model (id, m)) = false \/
  validate_math_tags_in_html_with_attribute_math_content env
    (PyStr.join (get_all_html_content_strings env
                   (get_suggestion_from_model (id, m)))) <> [] ->
  exists e,
    accept_suggestion env id reviewer_id commit_message review_message st
      = (Raise e, st)
    /\ e = (if pre_accept_validate env (explorations st)
                 (get_suggestion_from_model (id, m))
            then InvalidMathTags id
            else ValidationError "pre_accept_validate").
Proof.
  intros Hm Hs Hcm Hbad.
  rewrite (accept_suggestion_eval env _ _ _ _ _ _ Hm Hs Hcm). cbv zeta.
  destruct (pre_accept_validate env _ _); cbn [negb].
  - destruct Hbad as [Hbad|Hbad]; [discriminate|].
    rewrite bool_decide_true; [eauto|].
    destruct (validate_math_tags_in_html_with_attribute_math_content env _);
      [contradiction | simpl; lia].
  - eauto.
Qed.

(** X7: whenever [accept_suggestion] raises, no suggestion record, thread,
    thread message, scoring record or notification has changed. The change
    has been handed to the target content only in one case: the accepted
    suggestion failed the entity validation of the update, which runs after
    the hand-over. *)
Theorem accept_suggestion_failure_contained
    id reviewer_id commit_message review_message st e st' :
  accept_suggestion env id reviewer_id commit_message review_message st
    = (Raise e, st') ->
  suggestion_store st' = suggestion_store st
  /\ batch_writes st' = batch_writes st
  /\ threads st' = threads st
  /\ messages st' = messages st
  /\ scoring_store st' = scoring_store st
  /\ emails st' = emails st
  /\ (commits st' = commits st \/
      (e = ValidationError "validate" /\
       exists entry, commits st' = commits st ++ [entry])).
Proof.
  intros H.
  destruct (accept_suggestion_cases env _ _ _ _ _ _ _ H)
    as [(e' & _ & ->) | (m & _ & _ & _ & [(He & _ & ->) | (He & _)])].
  - repeat split. now left.
  - injection He as ->. repeat split. right. split; [reflexivity|].
    eexists. reflexivity.
  - discriminate.
Qed.

(** X8: when recording of scores is enabled and scoring records are stored
    under their own (user, category), a returning [accept_suggestion] leaves
    the author's record for the category of the suggestion with the score
    it had (0 without a record) plus the award, and no other scoring record
    changes; when recording is disabled no scoring record and no
    notification changes. *)
Theorem accept_suggestion_awards_author
    id reviewer_id commit_message review_message st st' m :
  accept_suggestion env id reviewer_id commit_message review_message st
    = (Ok tt, st') ->
  suggestion_store st !! id = Some m ->
  (forall k r, scoring_store st !! k = Some r ->
               (user_id r, us_score_category r) = k) ->
  let k := (m_author_id m, m_score_category m) in
  if ENABLE_RECORDING_OF_SCORES env then
    (exists r', scoring_store st' !! k = Some r'
       /\ user_id r' = m_author_id m
       /\ us_score_category r' = m_score_category m
       /\ score r' = score (scoring_of (scoring_store st) (m_author_id m)
                              (m_score_category m))
                     + INCREMENT_SCORE_OF_AUTHOR_BY env)
    /\ (forall k', k' <> k -> scoring_store st' !! k' = scoring_store st !! k')
  else scoring_store st' = scoring_store st /\ emails st' = emails st.
Proof.
  intros H Hm Hkeyed k.
  destruct (accept_suggestion_cases env _ _ _ _ _ _ _ H)
    as [(e' & He & _) | (m' & Hm' & _ & _ & [(He & _) | (_ & ->)])];
    try discriminate.
  rewrite Hm in Hm'. injection Hm' as <-.
  unfold accepted_state, scored.
  destruct (ENABLE_RECORDING_OF_SCORES env); [|split; reflexivity].
  cbv zeta.
  cbn [author_id score_category accepted_by set_final_reviewer_id
       set_suggestion_status_to_accepted set_status get_suggestion_from_model
       fst snd].
  set (st3 := with_messages _ _).
  change (scoring_store st3) with (scoring_store st).
  assert (Hkey : (user_id (scoring_of (scoring_store st) (m_author_id m)
                             (m_score_category m)),
                  us_score_category (scoring_of (scoring_store st)
                             (m_author_id m) (m_score_category m))) = k).
  { unfold scoring_of.
    destruct (scoring_store st !! (m_author_id m, m_score_category m))
      as [r|] eqn:Hr; [|reflexivity].
    apply (Hkeyed _ _ Hr). }
  cbn [user_id us_score_category increment_score].
  rewrite Hkey.
  destruct (_ && _); cbn [scoring_store with_scoring with_emails];
    change (scoring_store st3) with (scoring_store st);
    (split;
     [eexists; split; [apply lookup_insert_eq|];
      cbn [user_id us_score_category score mark_onboarding_email_as_sent
           increment_score];
      injection Hkey as -> ->; repeat split
     |intros k' Hne; apply lookup_insert_ne; congruence]).
Qed.

(** X9: with the same assumptions, the call sends the onboarding
    notification exactly when sending is enabled, the new score has reached
    the minimum score required to review and the sent-flag of the record was
    not set; the flag of the written record is then set, and otherwise is
    the flag the record had. *)
Theorem accept_suggestion_notifies_on_crossing
    id reviewer_id commit_message review_message st st' m :
  accept_suggestion env id reviewer_id commit_message review_message st
    = (Ok tt, st') ->
  suggestion_store st !! id = Some m ->
  ENABLE_RECORDING_OF_SCORES env = true ->
  (forall k r, scoring_store st !! k = Some r ->
               (user_id r, us_score_category r) = k) ->
  let k := (m_author_id m, m_score_category m) in
  let old := scoring_of (scoring_store st) (m_author_id m) (m_score_category m) in
  let crossing :=
    SEND_SUGGESTION_REVIEW_RELATED_EMAILS env
    && ((MINIMUM_SCORE_REQUIRED_TO_REVIEW env
         <=? score old + INCREMENT_SCORE_OF_AUTHOR_BY env)
        && negb (onboard_reviewer_email_sent old)) in
  emails st' = (if crossing then emails st ++ [k] else emails st)
  /\ email_sent_flag (scoring_store st') k
     = (onboard_reviewer_email_sent old || crossing).
Proof.
  intros H Hm Hen Hkeyed k old crossing.
  destruct (accept_suggestion_cases env _ _ _ _ _ _ _ H)
    as [(e' & He & _) | (m' & Hm' & _ & _ & [(He & _) | (_ & ->)])];
    try discriminate.
  rewrite Hm in Hm'. injection Hm' as <-.
  unfold accepted_state, scored. rewrite Hen. cbv zeta.
  cbn [author_id score_category accepted_by set_final_reviewer_id
       set_suggestion_status_to_accepted set_status get_suggestion_from_model
       fst snd].
  set (st3 := with_messages _ _).
  change (scoring_store st3) with (scoring_store st).
  fold old.
  assert (Hkey : (user_id old, us_score_category old) = k).
  { unfold old, scoring_of.
    destruct (scoring_store st !! (m_author_id m, m_score_category m))
      as [r|] eqn:Hr; [|reflexivity].
    apply (Hkeyed _ _ Hr). }
  cbn [user_id us_score_category increment_score onboard_reviewer_email_sent
       score can_user_review_category].
  unfold can_user_review_category.
  cbn [score increment_score]. fold crossing. rewrite Hkey.
  unfold email_sent_flag.
  destruct crossing eqn:Hc;
    cbn [emails scoring_store with_scoring with_emails];
    rewrite lookup_insert_eq;
    cbn [onboard_reviewer_email_sent mark_onboarding_email_as_sent];
    (split; [reflexivity|]).
  - now rewrite orb_true_r.
  - now rewrite orb_false_r.
Qed.

End AcceptOutcomes.

(** ** Rejection, in full *)

Section RejectOutcomes.

Variable env : Env.

Lemma reject_check_first st done pre id rest :
  Forall (unhandled_in st) pre ->
  reject_check (done ++ pre ++ id :: rest) (length done)
    (stored_suggestions st (pre ++ id :: rest))
  = match suggestion_store st !! id with
    | None => Raise (RejectDoesNotExist id)
    | Some m =>
        if bool_decide (m_status m ≠ STATUS_IN_REVIEW)
        then Raise (AlreadyHandledExn id)
        else reject_check (done ++ pre ++ id :: rest)
               (S (length (done ++ pre))) (stored_suggestions st rest)
    end.
Proof.
  intros Hpre; revert done.
  induction Hpre as [|p pre (m & Hm & Hs) _ IH]; intros done.
  - change ([] ++ id :: rest) with (id :: rest).
    rewrite reject_check_cons, app_nil_r.
    rewrite list_lookup_middle by reflexivity. reflexivity.
  - change ((p :: pre) ++ id :: rest) with (p :: (pre ++ id :: rest)).
    rewrite reject_check_cons, Hm.
    rewrite bool_decide_false by (intros H; now apply H).
    specialize (IH (done ++ [p])).
    rewrite <- !app_assoc in IH. simpl in IH.
    rewrite length_app in IH. simpl in IH.
    replace (length done + 1)%nat with (S (length done)) in IH by lia.
    rewrite IH. rewrite !length_app. simpl.
    replace (length done + 1 + length pre)%nat
      with (length done + S (length pre))%nat by lia.
    reflexivity.
Qed.

(** X10: [reject_suggestions] reports the first offending id of the batch,
    in batch order: when the ids before it are all stored and in review,
    an id that is not stored makes the call raise "You cannot reject the
    suggestion with id ... because it does not exist.", and one that is
    stored but handled makes it raise "... has already been accepted/
    rejected."; whatever follows in the batch and whatever the review
    message, and with the state unchanged. *)
Theorem reject_suggestions_first_offender
    pre id rest reviewer_id review_message st :
  Forall (unhandled_in st) pre ->
  suggestion_store st !! id = None \/
  (exists m, suggestion_store st !! id = Some m
             /\ m_status m <> STATUS_IN_REVIEW) ->
  reject_suggestions env (pre ++ id :: rest) reviewer_id review_message st
  = (Raise (match suggestion_store st !! id with
            | None => RejectDoesNotExist id
            | Some _ => AlreadyHandledExn id
            end), st).
Proof.
  intros Hpre Hbad.
  unfold reject_suggestions, mbind, M_bind, lift.
  rewrite get_suggestions_by_ids_eq.
  pose proof (reject_check_first st [] pre id rest Hpre) as Hc.
  simpl in Hc. rewrite Hc.
  destruct Hbad as [-> | (m & -> & Hs)]; [reflexivity|].
  now rewrite bool_decide_true.
Qed.

(** X11: a batch of stored suggestions in review, rejected with a review
    message that is not empty (the rejected suggestions passing the entity
    validation): every stored suggestion of the batch becomes the same
    record with status rejected, the reviewer as final reviewer and the
    time of the call; one message with status ignored is posted per id, in
    batch order; threads, target content, scoring records and notifications
    are untouched. *)
Theorem reject_suggestions_rejects
    ids reviewer_id review_message st :
  Forall (unhandled_in st) ids ->
  review_message <> "" ->
  (forall id m, id ∈ ids -> suggestion_store st !! id = Some m ->
                validate env (rejected_by reviewer_id (id, m)) = true) ->
  exists st',
    reject_suggestions env ids reviewer_id review_message st = (Ok tt, st')
    /\ (forall id m, suggestion_store st !! id = Some m ->
          suggestion_store st' !! id
          = Some (if bool_decide (id ∈ ids)
                  then model_update STATUS_REJECTED (Some reviewer_id)
                         (m_change_cmd m) (now st) m
                  else m))
    /\ (forall id, suggestion_store st !! id = None ->
          suggestion_store st' !! id = None)
    /\ messages st' = messages st ++
         map (fun tid => mkMessage tid reviewer_id STATUS_CHOICES_IGNORED
                           None review_message) ids
    /\ threads st' = threads st
    /\ commits st' = commits st
    /\ scoring_store st' = scoring_store st
    /\ emails st' = emails st.
Proof.
  intros Hgood Hmsg Hval.
  destruct (reject_suggestions_returns env ids reviewer_id review_message st
              Hgood Hmsg Hval) as (l & Hb & ->).
  eexists. split; [reflexivity|].
  unfold rejected_state, with_messages.
  cbn [suggestion_store messages threads commits scoring_store emails].
  split; [|split; [|repeat split]].
  - intros id m Hm.
    pose proof (rejected_batch_lookup st reviewer_id ids l id Hb) as H.
    now rewrite Hm in H.
  - intros id Hm.
    pose proof (rejected_batch_lookup st reviewer_id ids l id Hb) as H.
    now rewrite Hm in H.
Qed.

(** X12: the empty batch. With a review message that is not empty the call
    returns: no suggestion changes and no message is posted, but the store
    still gets a batch write (of nothing); with an empty review message it
    raises "Review message cannot be empty." all the same. *)
Theorem reject_suggestions_empty_batch reviewer_id review_message st :
  (review_message <> "" ->
   exists st',
     reject_suggestions env [] reviewer_id review_message st = (Ok tt, st')
     /\ suggestion_store st' = suggestion_store st
     /\ messages st' = messages st
     /\ batch_writes st' = batch_writes st ++ [[]])
  /\ reject_suggestions env [] reviewer_id "" st = (Raise ReviewMessageEmpty, st).
Proof.
  split; [|reflexivity].
  intros Hmsg. unfold reject_suggestions, mbind, M_bind, lift. simpl.
  rewrite (PyStrFacts.truthy_nonempty _ Hmsg). simpl.
  eexists. split; [reflexivity|]. simpl.
  repeat split. apply app_nil_r.
Qed.

End RejectOutcomes.

(** ** Resubmission, in full *)

Section ResubmitOutcomes.

Variable env : Env.

(** X13: whenever [resubmit_rejected_suggestion] raises, the whole state is
    the one the call started from. *)
Theorem resubmit_failure_unchanged
    id summary_message author_id change st e st' :
  resubmit_rejected_suggestion env id summary_message author_id change st
    = (Raise e, st') ->
  st' = st.
Proof.
  intros H.
  destruct (resubmit_cases env _ _ _ _ _ _ _ H)
    as [(e' & _ & ->) | (m & _ & _ & _ & He & _)];
    [reflexivity | discriminate].
Qed.

(** X14: the guards of a resubmission, in the order the code has them. An
    empty summary message is refused first, whatever the id (stored or
    not); then a stored suggestion still in review is refused as not yet
    handled; then, for a rejected one, a change failing the pre-update
    validation is refused. Each time the state is unchanged. *)
Theorem resubmit_guards id summary_message author_id change st :
  resubmit_rejected_suggestion env id "" author_id change st
    = (Raise SummaryMessageEmpty, st)
  /\ (forall m, suggestion_store st !! id = Some m ->
        summary_message <> "" ->
        m_status m = STATUS_IN_REVIEW ->
        resubmit_rejected_suggestion env id summary_message author_id change st
          = (Raise (NotYetHandledExn id), st))
  /\ (forall m, suggestion_store st !! id = Some m ->
        summary_message <> "" ->
        m_status m = STATUS_REJECTED ->
        pre_update_validate env (get_suggestion_from_model (id, m)) change
          = false ->
        resubmit_rejected_suggestion env id summary_message author_id change st
          = (Raise (ValidationError "pre_update_validate"), st)).
Proof.
  split; [reflexivity|]. split.
  - intros m Hm Hsum Hs.
    unfold resubmit_rejected_suggestion, mbind, M_bind.
    rewrite get_suggestion_by_id_eq, (fetch_present _ _ _ Hm).
    rewrite (PyStrFacts.truthy_nonempty _ Hsum). simpl.
    unfold is_handled. simpl. rewrite Hs. reflexivity.
  - intros m Hm Hsum Hs Hpre.
    rewrite (resubmit_eval env _ _ _ _ _ _ Hm Hs Hsum). cbv zeta.
    now rewrite Hpre.
Qed.

End ResubmitOutcomes.

(** ** The services around the lifecycle *)

Section AroundFacts.

Variable env : Env.
Variable db : StoreQueries.

(** X15: [check_can_resubmit_suggestion] answers whether the user is the
    author of the stored suggestion, without changing the state; for an id
    under which nothing is stored it does not answer "no" but dies with the
    AttributeError of [None.author_id]. *)
Theorem check_can_resubmit_suggestion_author suggestion_id user st :
  check_can_resubmit_suggestion suggestion_id user st
  = match suggestion_store st !! suggestion_id with
    | Some m => (Ok (bool_decide (m_author_id m = user)), st)
    | None => (Raise (NoneAttributeError "author_id"), st)
    end.
Proof.
  unfold check_can_resubmit_suggestion, mbind, M_bind.
  rewrite get_suggestion_by_id_eq. unfold fetch.
  destruct (suggestion_store st !! suggestion_id); reflexivity.
Qed.

(** X16: writing a scoring object and reading the pair back gives the
    object that was written, and the write touches no other pair. *)
Theorem update_then_get_user_scoring us st :
  let st' := snd (_update_user_scoring us st) in
  get_user_scoring (user_id us) (us_score_category us) st' = (Ok us, st')
  /\ (forall k, k <> (user_id us, us_score_category us) ->
        scoring_store st' !! k = scoring_store st !! k)
  /\ suggestion_store st' = suggestion_store st
  /\ emails st' = emails st.
Proof.
  unfold _update_user_scoring, get_user_scoring.
  destruct (scoring_store st !! (user_id us, us_score_category us));
    cbn [snd scoring_store with_scoring];
    rewrite lookup_insert_eq; destruct us;
    (split; [reflexivity|]);
    (split; [intros k Hne; apply lookup_insert_ne; congruence|]);
    split; reflexivity.
Qed.

End AroundFacts.

(** ** Batch updates *)

Section BatchUpdates.

Variable env : Env.

Lemma copy_all_missing store pre rest :
  Exists (fun s => store !! suggestion_id s = None) rest ->
  copy_all (pre ++ rest) (length pre)
    (map (fetch store) (map suggestion_id rest))
  = Raise (NoneAttributeError "status").
Proof.
  intros H; revert pre; induction rest as [|s rest IH]; intros pre.
  - inversion H.
  - simpl. rewrite list_lookup_middle by reflexivity. unfold fetch at 1.
    destruct (store !! suggestion_id s) as [m|] eqn:Hm; [|reflexivity].
    assert (Hrest : Exists (fun s => store !! suggestion_id s = None) rest).
    { inversion H as [? ? Hs|]; [congruence | assumption]. }
    specialize (IH Hrest (pre ++ [s])).
    rewrite <- app_assoc, length_app in IH. simpl in IH.
    replace (length pre + 1)%nat with (S (length pre)) in IH by lia.
    now rewrite IH.
Qed.

(** X17: [_update_suggestions] is all-or-nothing. Whenever it raises, the
    state is unchanged; and it raises, with the AttributeError of an
    attribute assignment on [None], as soon as one suggestion of the batch
    has an id under which nothing is stored, even though every suggestion
    of the batch is valid. *)
Theorem update_suggestions_all_or_nothing ss flag st :
  (forall e st', _update_suggestions env ss flag st = (Raise e, st') -> st' = st)
  /\ (Forall (fun s => validate env s = true) ss ->
      Exists (fun s => suggestion_store st !! suggestion_id s = None) ss ->
      _update_suggestions env ss flag st
        = (Raise (NoneAttributeError "status"), st)).
Proof.
  split.
  - intros e st' H.
    destruct (update_suggestions_cases env ss flag st)
      as [(e' & He) | (l & _ & _ & He)]; rewrite He in H.
    + now injection H as _ <-.
    + discriminate.
  - intros Hv Hmiss.
    unfold _update_suggestions, mbind, M_bind, lift, get_multi.
    rewrite (validate_all_ok env _ Hv).
    pose proof (copy_all_missing (suggestion_store st) [] ss Hmiss) as Hc.
    simpl in Hc. now rewrite Hc.
Qed.

(** X18: when [_update_suggestions] returns, every stored suggestion is
    still stored, with its type, target, version, author as before; its
    time of last update is the time of the call if the flag
    [update_last_updated_time] is set and the batch holds its id, and is
    unchanged otherwise (so a call with the flag unset refreshes no
    timestamp); and nothing is stored under an id that had nothing. *)
Theorem update_suggestions_last_updated ss flag st st' :
  _update_suggestions env ss flag st = (Ok tt, st') ->
  (forall id m, suggestion_store st !! id = Some m ->
     exists m', suggestion_store st' !! id = Some m'
       /\ m_last_updated m'
          = (if flag && bool_decide (id ∈ map suggestion_id ss)
             then now st else m_last_updated m)
       /\ (m_suggestion_type m', m_target_type m', m_target_id m',
           m_target_version_at_submission m', m_author_id m')
          = (m_suggestion_type m, m_target_type m, m_target_id m,
             m_target_version_at_submission m, m_author_id m))
  /\ (forall id, suggestion_store st !! id = None ->
        suggestion_store st' !! id = None).
Proof.
  intros H.
  destruct (update_suggestions_cases env ss flag st)
    as [(e' & He) | (l & Hl & _ & He)]; rewrite He in H; [discriminate|].
  injection H as <-. split.
  - intros id m Hm.
    pose proof (updated_lookup_cases st ss l flag id Hl) as Hc.
    rewrite Hm in Hc.
    destruct Hc as (m' & Hm' & [[-> Hnin] | (s & Hs & Hid & ->)]).
    + exists m. split; [exact Hm'|].
      rewrite (bool_decide_false _ Hnin), andb_false_r. auto.
    + eexists. split; [exact Hm'|].
      assert (Hin : id ∈ map suggestion_id ss).
      { rewrite <- Hid. apply list_elem_of_In, in_map, list_elem_of_In, Hs. }
      rewrite (bool_decide_true _ Hin), andb_true_r.
      destruct flag; split; reflexivity.
  - intros id Hm.
    pose proof (updated_lookup_cases st ss l flag id Hl) as Hc.
    now rewrite Hm in Hc.
Qed.

End BatchUpdates.

(** ** The state machine of a stored suggestion *)

Section StateMachine.

Variable env : Env.

Lemma transition_of_same (store store' : gmap string SuggestionModel) t id :
  store' = store ->
  match store !! id with
  | None => store' !! id = None
  | Some m => exists m', store' !! id = Some m' /\ transition t m m'
  end.
Proof.
  intros ->. destruct (store !! id) as [m|]; [|reflexivity].
  exists m. split; [reflexivity | constructor].
Qed.

Lemma transition_of_insert (store : gmap string SuggestionModel) t id0 m0 m1 id :
  store !! id0 = Some m0 ->
  transition t m0 m1 ->
  match store !! id with
  | None => <[id0 := m1]> store !! id = None
  | Some m => exists m', <[id0 := m1]> store !! id = Some m' /\ transition t m m'
  end.
Proof.
  intros Hm0 Htr. destruct (decide (id0 = id)) as [<-|Hne].
  - rewrite Hm0, lookup_insert_eq. eauto.
  - rewrite lookup_insert_ne by exact Hne.
    destruct (store !! id) as [m|]; [|reflexivity].
    exists m. split; [reflexivity | constructor].
Qed.

Lemma resubmitted_store id0 m0 c f st :
  suggestion_store
    (with_messages f
       (updated [copy_fields (resubmitted_with c (id0, m0)) (id0, m0)] true st))
  = <[id0 := model_update STATUS_IN_REVIEW (m_final_reviewer_id m0) c
               (now st) m0]> (suggestion_store st).
Proof. reflexivity. Qed.

(** What a call other than a creation does to the suggestion stored under
    an id: one transition, and nothing where nothing was stored. *)
Lemma run_op_transition o st id :
  is_create o = false ->
  match suggestion_store st !! id with
  | None => suggestion_store (run_op env o st) !! id = None
  | Some m =>
      exists m', suggestion_store (run_op env o st) !! id = Some m'
                 /\ transition (now st) m m'
  end.
Proof.
  assert (Hreject : forall ids reviewer_id review_message,
    match suggestion_store st !! id with
    | None => suggestion_store
                (snd (reject_suggestions env ids reviewer_id review_message st))
                !! id = None
    | Some m =>
        exists m', suggestion_store
                     (snd (reject_suggestions env ids reviewer_id
                             review_message st)) !! id = Some m'
                   /\ transition (now st) m m'
    end).
  { intros ids reviewer_id review_message.
    destruct (reject_suggestions env ids reviewer_id review_message st)
      as [r st'] eqn:H. cbn [snd].
    destruct (reject_suggestions_cases env _ _ _ _ _ _ H)
      as [(e & _ & ->) | (_ & Hgood & _ & l & Hb & ->)];
      [now apply transition_of_same|].
    change (suggestion_store (rejected_state ids reviewer_id review_message l st))
      with (suggestion_store (updated l true st)).
    pose proof (rejected_batch_lookup st reviewer_id ids l id Hb) as Hl.
    destruct (suggestion_store st !! id) as [m|] eqn:Hm; [|exact Hl].
    eexists. split; [exact Hl|].
    destruct (decide (id ∈ ids)) as [Hin|Hnin].
    - rewrite (bool_decide_true _ Hin). rewrite Forall_forall in Hgood.
      destruct (Hgood id Hin) as (m' & Hm' & Hs).
      rewrite Hm in Hm'. injection Hm' as <-. now constructor.
    - rewrite (bool_decide_false _ Hnin). constructor. }
  intros Hnc. destruct o as [| id0 rv cm rm | id0 rv rm | ids rv rm | id0 sm a c];
    [discriminate| | | |]; cbn [run_op].
  - destruct (accept_suggestion env id0 rv cm rm st) as [r st'] eqn:H.
    cbn [snd].
    destruct (accept_suggestion_cases env _ _ _ _ _ _ _ H)
      as [(e & _ & ->) | (m0 & Hm0 & Hs & _ & [(_ & _ & ->) | (_ & ->)])].
    + now apply transition_of_same.
    + now apply transition_of_same.
    + rewrite accepted_state_store.
      apply (transition_of_insert _ _ _ m0); [exact Hm0 | now constructor].
  - unfold reject_suggestion. apply Hreject.
  - apply Hreject.
  - destruct (resubmit_rejected_suggestion env id0 sm a c st) as [r st'] eqn:H.
    cbn [snd].
    destruct (resubmit_cases env _ _ _ _ _ _ _ H)
      as [(e & _ & ->) | (m0 & Hm0 & Hs & _ & _ & ->)].
    + now apply transition_of_same.
    + rewrite resubmitted_store.
      apply (transition_of_insert _ _ _ m0); [exact Hm0 | now constructor].
Qed.

(** X19: no call other than a creation moves a stored suggestion along an
    edge the state machine does not have: after an accept, a reject (single
    or batch) or a resubmit, whether it returned or raised, every stored
    suggestion is still stored, and its status is the old one, or went from
    in-review to accepted or rejected, or from rejected back to in-review. *)
Theorem status_transitions_are_legal o st id m :
  is_create o = false ->
  suggestion_store st !! id = Some m ->
  exists m', suggestion_store (run_op env o st) !! id = Some m'
             /\ legal_status_step (m_status m) (m_status m') = true.
Proof.
  intros Hnc Hm. pose proof (run_op_transition o st id Hnc) as H.
  rewrite Hm in H. destruct H as (m' & Hm' & Htr).
  exists m'. split; [exact Hm'|].
  destruct Htr as [| r Hs | r Hs | c Hs]; cbn [m_status model_update];
    try rewrite Hs; try reflexivity.
  destruct (m_status m); reflexivity.
Qed.

Lemma run_ops_app ops1 ops2 st :
  run_ops env (ops1 ++ ops2) st = run_ops env ops2 (run_ops env ops1 st).
Proof. unfold run_ops. apply foldl_app. Qed.

(** X20: accepted is terminal. Through every sequence of accepts, rejects
    (single or batch) and resubmits, a suggestion stored as accepted keeps
    the very same record: status, final reviewer, change and time of last
    update included. *)
Theorem accepted_is_terminal ops st id m :
  Forall (fun o => is_create o = false) ops ->
  suggestion_store st !! id = Some m ->
  m_status m = STATUS_ACCEPTED ->
  suggestion_store (run_ops env ops st) !! id = Some m.
Proof.
  intros Hops Hm Hs. induction ops as [|o ops IH] using rev_ind; [exact Hm|].
  apply Forall_app in Hops as [Hops Ho]. inversion Ho as [|? ? Hnc _]; subst.
  rewrite run_ops_app. cbn [run_ops foldl].
  pose proof (run_op_transition o (run_ops env ops st) id Hnc) as H.
  rewrite (IH Hops) in H. destruct H as (m' & Hm' & Htr).
  rewrite Hm'. f_equal.
  destruct Htr as [| r Hs' | r Hs' | c Hs']; congruence.
Qed.

(** X21: through every sequence of accepts, rejects (single or batch) and
    resubmits, the set of stored suggestion ids stays the same, and every
    stored suggestion keeps its type, target type, target id, target
    version, author and score category. *)
Theorem immutable_fields_preserved ops st id :
  Forall (fun o => is_create o = false) ops ->
  match suggestion_store st !! id with
  | None => suggestion_store (run_ops env ops st) !! id = None
  | Some m =>
      exists m', suggestion_store (run_ops env ops st) !! id = Some m'
        /\ (m_suggestion_type m', m_target_type m', m_target_id m',
            m_target_version_at_submission m', m_author_id m',
            m_score_category m')
           = (m_suggestion_type m, m_target_type m, m_target_id m,
              m_target_version_at_submission m, m_author_id m,
              m_score_category m)
  end.
Proof.
  intros Hops. induction ops as [|o ops IH] using rev_ind.
  - cbn [run_ops foldl]. destruct (suggestion_store st !! id) as [m|]; eauto.
  - apply Forall_app in Hops as [Hops Ho]. inversion Ho as [|? ? Hnc _]; subst.
    rewrite run_ops_app. cbn [run_ops foldl].
    specialize (IH Hops).
    pose proof (run_op_transition o (run_ops env ops st) id Hnc) as H.
    fold (run_ops env ops st) in H.
    destruct (suggestion_store st !! id) as [m|].
    + destruct IH as (m1 & Hm1 & Heq). unfold run_ops in Hm1, H.
      rewrite Hm1 in H. destruct H as (m2 & Hm2 & Htr).
      exists m2. split; [exact Hm2|]. rewrite <- Heq.
      destruct Htr; reflexivity.
    + unfold run_ops in IH, H. now rewrite IH in H.
Qed.

End StateMachine.

(** ** Automatic rejection *)

Section AutoReject.

Variable env : Env.
Variable db : StoreQueries.

Lemma queried_ids (q : list (string * SuggestionModel)) :
  map suggestion_id (map get_suggestion_from_model q) = map fst q.
Proof. induction q as [|im q IH]; simpl; [reflexivity | now rewrite IH]. Qed.

(** X22: [auto_reject_question_suggestions_for_skill_id] rejects what the
    store query for the question suggestions of the skill returns, as one
    batch and in the name of the suggestion bot. When the query returns
    stored records: if one of them is already handled the call raises the
    already-handled failure and rejects nothing; if all are in review (the
    bot's message being not empty and the rejected suggestions valid),
    every one of them is stored as rejected with the bot as final reviewer.
    And whenever the call raises, the state is unchanged. *)
Theorem auto_reject_question_suggestions_all_or_nothing skill_id st :
  let q := model_query_suggestions db
             [ ("suggestion_type", SUGGESTION_TYPE_ADD_QUESTION env);
               ("target_id", skill_id) ] (suggestion_store st) in
  (forall e st',
     auto_reject_question_suggestions_for_skill_id env db skill_id st
       = (Raise e, st') -> st' = st)
  /\ ((forall im, im ∈ q -> suggestion_store st !! fst im = Some (snd im)) ->
      Exists (fun im => m_status (snd im) <> STATUS_IN_REVIEW) q ->
      exists id m,
        auto_reject_question_suggestions_for_skill_id env db skill_id st
          = (Raise (AlreadyHandledExn id), st)
        /\ suggestion_store st !! id = Some m
        /\ m_status m <> STATUS_IN_REVIEW)
  /\ ((forall im, im ∈ q -> suggestion_store st !! fst im = Some (snd im)) ->
      Forall (fun im => m_status (snd im) = STATUS_IN_REVIEW) q ->
      DELETED_SKILL_REJECT_MESSAGE db <> "" ->
      (forall im, im ∈ q ->
         validate env (rejected_by (SUGGESTION_BOT_USER_ID db) im) = true) ->
      exists st',
        auto_reject_question_suggestions_for_skill_id env db skill_id st
          = (Ok tt, st')
        /\ forall im, im ∈ q ->
             suggestion_store st' !! fst im
             = Some (model_update STATUS_REJECTED
                       (Some (SUGGESTION_BOT_USER_ID db))
                       (m_change_cmd (snd im)) (now st) (snd im))).
Proof.
  intros q.
  assert (Heq : auto_reject_question_suggestions_for_skill_id env db skill_id st
                = reject_suggestions env (map fst q) (SUGGESTION_BOT_USER_ID db)
                    (DELETED_SKILL_REJECT_MESSAGE db) st).
  { unfold auto_reject_question_suggestions_for_skill_id, mbind, M_bind,
      query_suggestions. fold q. now rewrite queried_ids. }
  rewrite Heq. split; [|split].
  - intros e st'. apply reject_suggestions_raise_unchanged.
  - intros Hstored Hbad.
    destruct (reject_check_cases st [] (map fst q))
      as [[_ HF] | (e & id & He & Hin & Hoff)].
    + exfalso. apply Exists_exists in Hbad as (im & Him & Hs).
      rewrite Forall_forall in HF.
      destruct (HF (fst im)) as (m & Hm & Hs').
      { apply list_elem_of_In, in_map, list_elem_of_In, Him. }
      rewrite (Hstored im Him) in Hm.
      injection Hm as <-. contradiction.
    + apply list_elem_of_In, in_map_iff in Hin as (im & <- & Him).
      apply list_elem_of_In in Him.
      destruct Hoff as [[Hn _] | (m & Hm & Hs & ->)].
      * rewrite (Hstored im Him) in Hn. discriminate.
      * exists (fst im), m. split; [|auto].
        unfold reject_suggestions, mbind, M_bind, lift.
        rewrite get_suggestions_by_ids_eq. simpl in He. now rewrite He.
  - intros Hstored Hgood Hmsg Hval.
    rewrite Forall_forall in Hgood.
    destruct (reject_suggestions_returns env (map fst q)
                (SUGGESTION_BOT_USER_ID db) (DELETED_SKILL_REJECT_MESSAGE db) st)
      as (l & Hb & ->).
    + apply Forall_forall. intros id Hin.
      apply list_elem_of_In, in_map_iff in Hin as (im & <- & Him).
      apply list_elem_of_In in Him.
      exists (snd im). split; [apply Hstored, Him | apply Hgood, Him].
    + exact Hmsg.
    + intros id m Hin Hm.
      apply list_elem_of_In, in_map_iff in Hin as (im & <- & Him).
      apply list_elem_of_In in Him.
      rewrite (Hstored im Him) in Hm. injection Hm as <-.
      specialize (Hval im Him). now destruct im.
    + eexists. split; [reflexivity|]. intros im Him.
      change (suggestion_store (rejected_state (map fst q)
                (SUGGESTION_BOT_USER_ID db) (DELETED_SKILL_REJECT_MESSAGE db)
                l st))
        with (suggestion_store (updated l true st)).
      pose proof (rejected_batch_lookup st _ _ l (fst im) Hb) as Hl.
      rewrite (Hstored im Him) in Hl. rewrite Hl.
      rewrite bool_decide_true; [reflexivity|].
      apply list_elem_of_In, in_map, list_elem_of_In, Him.
Qed.

(** X23: [auto_reject_translation_suggestions_for_exp_ids] with no
    exploration ids never asks the store which suggestions to reject: the
    batch is empty, no suggestion changes and no message is posted (the
    bot's message being not empty); and for any exploration ids, whenever
    the call raises, the state is unchanged. *)
Theorem auto_reject_translation_suggestions_no_explorations st :
  (INVALID_STORY_REJECT_TRANSLATION_SUGGESTIONS_MSG db <> "" ->
   exists st',
     auto_reject_translation_suggestions_for_exp_ids env db [] st = (Ok tt, st')
     /\ suggestion_store st' = suggestion_store st
     /\ messages st' = messages st)
  /\ (forall exp_ids e st',
        auto_reject_translation_suggestions_for_exp_ids env db exp_ids st
          = (Raise e, st') -> st' = st).
Proof.
  split.
  - intros Hmsg.
    unfold auto_reject_translation_suggestions_for_exp_ids,
      get_translation_suggestion_ids_with_exp_ids, reject_suggestions,
      mbind, M_bind, lift. simpl.
    rewrite (PyStrFacts.truthy_nonempty _ Hmsg). simpl.
    eexists. split; [reflexivity|]. simpl. split; [reflexivity|].
    apply app_nil_r.
  - intros exp_ids e st'.
    unfold auto_reject_translation_suggestions_for_exp_ids,
      get_translation_suggestion_ids_with_exp_ids.
    destruct (bool_decide (length exp_ids = 0%nat));
      unfold mbind, M_bind, mret, M_ret;
      apply reject_suggestions_raise_unchanged.
Qed.

End AutoReject.

(** * The further theorems at concrete inputs *)

Module MoreWitnesses.
Import Example ExampleStore.

Lemma create_suggestion_returns_stored_witness :
  exists r st',
    create_suggestion env0 "add_question" "skill" "S" 1 "alice" ∅ None st0
      = (Ok r, st')
    /\ exists s, r = Some s
         /\ suggestion_id s = q0
         /\ status s = STATUS_IN_REVIEW
         /\ final_reviewer_id s = None
         /\ get_suggestion_by_id (suggestion_id s) st' = (Ok (Some s), st').
Proof.
  destruct (create_suggestion env0 "add_question" "skill" "S" 1 "alice" ∅ None st0)
    as [[r|e] st'] eqn:H; [|vm_compute in H; discriminate].
  exists r, st'. split; [reflexivity|].
  destruct (create_suggestion_returns_stored env0 _ _ _ _ _ _ _ _ _ _ H)
    as (s & Hr & Hid & Hs & Hf & _ & Hget & _).
  exists s. repeat split; assumption.
Defined.

Lemma create_suggestion_score_category_witness :
  exists s st',
    create_suggestion env0 "translate_content" "exploration" "E" 1 "alice"
      change_hi None st0 = (Ok (Some s), st')
    /\ score_category s = "translation.Algebra".
Proof.
  destruct (create_suggestion env0 "translate_content" "exploration" "E" 1
              "alice" change_hi None st0) as [[[s|]|e] st'] eqn:H;
    [|vm_compute in H; discriminate|vm_compute in H; discriminate].
  exists s, st'. split; [reflexivity|].
  destruct (create_suggestion_score_category env0 _ _ _ _ _ _ _ _ _ _ H)
    as [(Hty & _) | [(_ & _ & e & sn & cid & html & _ & He & Hsc & _)
                    | (_ & Hty & _)]];
    [vm_compute in Hty; discriminate| |exfalso; apply Hty; reflexivity].
  vm_compute in He. injection He as <-. exact Hsc.
Defined.

Lemma create_suggestion_unbound_exploration_witness :
  "skill" <> TARGET_TYPE_EXPLORATION env0
  /\ create_suggestion env0 "edit_exploration_state_content" "skill" "S" 1
       "alice" ∅ None st0
     = (Raise (UnboundLocalError "exploration"),
        with_threads (fun ts => ts ++ [opened_thread env0 "skill" "S" "alice"
                                         None (threads st0)]) st0).
Proof.
  assert (H : "skill" <> TARGET_TYPE_EXPLORATION env0) by discriminate.
  split; [exact H|].
  apply (create_suggestion_unbound_exploration env0
           "edit_exploration_state_content" "skill" "S" 1 "alice" ∅ None st0 H
           (or_introl eq_refl)).
Defined.

Lemma accept_suggestion_accepts_witness :
  suggestion_store st_in_review !! id0 = Some (model_with STATUS_IN_REVIEW None)
  /\ exists st',
       accept_suggestion env0 id0 "bob" "apply translation" "thanks" st_in_review
         = (Ok tt, st')
       /\ suggestion_store st' !! id0
          = Some (model_with STATUS_ACCEPTED (Some "bob"))
       /\ commits st' = [("E", change_hi,
                          "Accepted suggestion by alice: apply translation")].
Proof.
  assert (Hm : suggestion_store st_in_review !! id0
               = Some (model_with STATUS_IN_REVIEW None))
    by (vm_compute; reflexivity).
  split; [exact Hm|].
  destruct (accept_suggestion_accepts env0 id0 "bob" "apply translation"
              "thanks" st_in_review _ Hm eq_refl eq_refl eq_refl eq_refl eq_refl)
    as (st' & H & Hstore & Hcommits & _).
  exists st'. split; [exact H|]. split.
  - rewrite Hstore. apply lookup_insert_eq.
  - rewrite Hcommits. reflexivity.
Defined.

Lemma accept_suggestion_missing_witness :
  suggestion_store st0 !! "missing" = None
  /\ accept_suggestion env0 "missing" "bob" "apply it" "thanks" st0
     = (Raise (AcceptDoesNotExist "missing"), st0).
Proof.
  assert (Hm : suggestion_store st0 !! "missing" = None)
    by (vm_compute; reflexivity).
  split; [exact Hm|].
  apply (accept_suggestion_missing env0 "missing" "bob" "apply it" "thanks" st0
           Hm eq_refl).
Defined.

Lemma accept_suggestion_invalid_untouched_witness :
  suggestion_store st_in_review !! id0 = Some (model_with STATUS_IN_REVIEW None)
  /\ exists e,
       accept_suggestion env_refusing id0 "bob" "apply it" "thanks" st_in_review
         = (Raise e, st_in_review)
       /\ e = ValidationError "pre_accept_validate".
Proof.
  assert (Hm : suggestion_store st_in_review !! id0
               = Some (model_with STATUS_IN_REVIEW None))
    by (vm_compute; reflexivity).
  split; [exact Hm|].
  apply (accept_suggestion_invalid_untouched env_refusing id0 "bob" "apply it"
           "thanks" st_in_review _ Hm eq_refl eq_refl (or_introl eq_refl)).
Defined.

Lemma accept_suggestion_failure_contained_witness :
  accept_suggestion env0 id0 "carol" "again" "fine" st_accepted
    = (Raise (AlreadyHandledExn id0), st_accepted)
  /\ suggestion_store st_accepted = suggestion_store st_accepted
  /\ messages st_accepted = messages st_accepted.
Proof.
  assert (H : accept_suggestion env0 id0 "carol" "again" "fine" st_accepted
              = (Raise (AlreadyHandledExn id0), st_accepted))
    by (vm_compute; reflexivity).
  split; [exact H|].
  destruct (accept_suggestion_failure_contained env0 _ _ _ _ _ _ _ H)
    as (Hs & _ & _ & Hmsg & _).
  split; [exact Hs | exact Hmsg].
Defined.

Lemma accept_suggestion_awards_author_witness :
  exists st',
    accept_suggestion env0 id0 "bob" "apply translation" "thanks" st_in_review
      = (Ok tt, st')
    /\ exists r', scoring_store st' !! ("alice", "translation.Algebra") = Some r'
         /\ score r' = 1.
Proof.
  destruct (accept_suggestion env0 id0 "bob" "apply translation" "thanks"
              st_in_review) as [[[]|e] st'] eqn:H;
    [|vm_compute in H; discriminate].
  exists st'. split; [reflexivity|].
  assert (Hm : suggestion_store st_in_review !! id0
               = Some (model_with STATUS_IN_REVIEW None))
    by (vm_compute; reflexivity).
  assert (Hkeyed : forall k r, scoring_store st_in_review !! k = Some r ->
                     (user_id r, us_score_category r) = k).
  { intros k r Hr. vm_compute in Hr. discriminate. }
  destruct (accept_suggestion_awards_author env0 _ _ _ _ _ _ _ H Hm Hkeyed)
    as [(r' & Hr' & _ & _ & Hscore) _].
  exists r'. split; [exact Hr' | exact Hscore].
Defined.

Lemma accept_suggestion_notifies_on_crossing_witness :
  exists st',
    accept_suggestion env0 id0 "bob" "apply translation" "thanks" st_in_review
      = (Ok tt, st')
    /\ emails st' = emails st_in_review
    /\ email_sent_flag (scoring_store st') ("alice", "translation.Algebra")
       = false.
Proof.
  destruct (accept_suggestion env0 id0 "bob" "apply translation" "thanks"
              st_in_review) as [[[]|e] st'] eqn:H;
    [|vm_compute in H; discriminate].
  exists st'. split; [reflexivity|].
  assert (Hm : suggestion_store st_in_review !! id0
               = Some (model_with STATUS_IN_REVIEW None))
    by (vm_compute; reflexivity).
  assert (Hkeyed : forall k r, scoring_store st_in_review !! k = Some r ->
                     (user_id r, us_score_category r) = k).
  { intros k r Hr. vm_compute in Hr. discriminate. }
  apply (accept_suggestion_notifies_on_crossing env0 _ _ _ _ _ _ _ H Hm
           eq_refl Hkeyed).
Defined.

Lemma reject_suggestions_first_offender_witness :
  Forall (unhandled_in st_in_review) [id0]
  /\ suggestion_store st_in_review !! "missing" = None
  /\ reject_suggestions env0 ([id0] ++ "missing" :: [id0]) "bob" "no"
       st_in_review
     = (Raise (RejectDoesNotExist "missing"), st_in_review).
Proof.
  assert (Hgood : Forall (unhandled_in st_in_review) [id0]).
  { repeat constructor. exists (model_with STATUS_IN_REVIEW None).
    split; [vm_compute; reflexivity | reflexivity]. }
  assert (Hm : suggestion_store st_in_review !! "missing" = None)
    by (vm_compute; reflexivity).
  split; [exact Hgood | split; [exact Hm|]].
  pose proof (reject_suggestions_first_offender env0 [id0] "missing" [id0]
                "bob" "no" st_in_review Hgood (or_introl Hm)) as H.
  rewrite Hm in H. exact H.
Defined.

Lemma reject_suggestions_rejects_witness :
  Forall (unhandled_in st_in_review) [id0]
  /\ exists st',
       reject_suggestions env0 [id0] "bob" "not yet" st_in_review = (Ok tt, st')
       /\ suggestion_store st' !! id0
          = Some (model_with STATUS_REJECTED (Some "bob"))
       /\ messages st' = [mkMessage id0 "bob" STATUS_CHOICES_IGNORED None
                            "not yet"].
Proof.
  assert (Hgood : Forall (unhandled_in st_in_review) [id0]).
  { repeat constructor. exists (model_with STATUS_IN_REVIEW None).
    split; [vm_compute; reflexivity | reflexivity]. }
  split; [exact Hgood|].
  destruct (reject_suggestions_rejects env0 [id0] "bob" "not yet" st_in_review
              Hgood) as (st' & H & Hstore & _ & Hmsg & _);
    [discriminate | intros; reflexivity |].
  exists st'. split; [exact H|]. split.
  - rewrite (Hstore id0 (model_with STATUS_IN_REVIEW None))
      by (vm_compute; reflexivity).
    vm_compute. reflexivity.
  - rewrite Hmsg. reflexivity.
Defined.

Lemma reject_suggestions_empty_batch_witness :
  "gone" <> ""
  /\ exists st',
       reject_suggestions env0 [] "bob" "gone" st_in_review = (Ok tt, st')
       /\ suggestion_store st' = suggestion_store st_in_review
       /\ messages st' = messages st_in_review
       /\ batch_writes st' = batch_writes st_in_review ++ [[]].
Proof.
  assert (H : "gone" <> "") by discriminate.
  split; [exact H|].
  apply (proj1 (reject_suggestions_empty_batch env0 "bob" "gone" st_in_review) H).
Defined.

Lemma resubmit_failure_unchanged_witness :
  resubmit_rejected_suggestion env0 id0 "again" "alice" change_hi st_in_review
    = (Raise (NotYetHandledExn id0), st_in_review)
  /\ st_in_review = st_in_review.
Proof.
  assert (H : resubmit_rejected_suggestion env0 id0 "again" "alice" change_hi
                st_in_review = (Raise (NotYetHandledExn id0), st_in_review))
    by (vm_compute; reflexivity).
  split; [exact H|].
  apply (resubmit_failure_unchanged env0 _ _ _ _ _ _ _ H).
Defined.

Lemma resubmit_guards_witness :
  suggestion_store st_in_review !! id0 = Some (model_with STATUS_IN_REVIEW None)
  /\ resubmit_rejected_suggestion env0 id0 "again" "alice" change_hi st_in_review
     = (Raise (NotYetHandledExn id0), st_in_review).
Proof.
  assert (Hm : suggestion_store st_in_review !! id0
               = Some (model_with STATUS_IN_REVIEW None))
    by (vm_compute; reflexivity).
  split; [exact Hm|].
  apply (proj1 (proj2 (resubmit_guards env0 id0 "again" "alice" change_hi
                         st_in_review)) _ Hm);
    [discriminate | reflexivity].
Defined.

Lemma update_suggestions_all_or_nothing_witness :
  Forall (fun s => validate env0 s = true) [stray]
  /\ Exists (fun s => suggestion_store st_in_review !! suggestion_id s = None)
       [stray]
  /\ _update_suggestions env0 [stray] true st_in_review
     = (Raise (NoneAttributeError "status"), st_in_review).
Proof.
  assert (Hv : Forall (fun s => validate env0 s = true) [stray])
    by (repeat constructor).
  assert (Hmiss : Exists (fun s => suggestion_store st_in_review
                                     !! suggestion_id s = None) [stray])
    by (constructor; vm_compute; reflexivity).
  split; [exact Hv | split; [exact Hmiss|]].
  apply (proj2 (update_suggestions_all_or_nothing env0 [stray] true
                  st_in_review) Hv Hmiss).
Defined.

Lemma update_suggestions_last_updated_witness :
  exists st',
    _update_suggestions env0
      [rejected_by "bob" (id0, model_with STATUS_IN_REVIEW None)] false
      st_in_review = (Ok tt, st')
    /\ exists m', suggestion_store st' !! id0 = Some m'
         /\ m_last_updated m' = 0%nat.
Proof.
  destruct (_update_suggestions env0
              [rejected_by "bob" (id0, model_with STATUS_IN_REVIEW None)] false
              st_in_review) as [[[]|e] st'] eqn:H;
    [|vm_compute in H; discriminate].
  exists st'. split; [reflexivity|].
  destruct (proj1 (update_suggestions_last_updated env0 _ _ _ _ H) id0
              (model_with STATUS_IN_REVIEW None))
    as (m' & Hm' & Ht & _); [vm_compute; reflexivity|].
  exists m'. split; [exact Hm' | exact Ht].
Defined.

Lemma status_transitions_are_legal_witness :
  suggestion_store st_in_review !! id0 = Some (model_with STATUS_IN_REVIEW None)
  /\ exists m',
       suggestion_store (run_op env0 (OpReject id0 "bob" "not yet") st_in_review)
         !! id0 = Some m'
       /\ legal_status_step STATUS_IN_REVIEW (m_status m') = true.
Proof.
  assert (Hm : suggestion_store st_in_review !! id0
               = Some (model_with STATUS_IN_REVIEW None))
    by (vm_compute; reflexivity).
  split; [exact Hm|].
  apply (status_transitions_are_legal env0 (OpReject id0 "bob" "not yet")
           st_in_review id0 _ eq_refl Hm).
Defined.

Lemma accepted_is_terminal_witness :
  suggestion_store st_accepted !! id0
  = Some (model_with STATUS_ACCEPTED (Some "bob"))
  /\ suggestion_store
       (run_ops env0 [ OpReject id0 "carol" "no";
                       OpResubmit id0 "again" "alice" change_bye;
                       OpAccept id0 "carol" "once more" "ok" ] st_accepted)
       !! id0
     = Some (model_with STATUS_ACCEPTED (Some "bob")).
Proof.
  assert (Hm : suggestion_store st_accepted !! id0
               = Some (model_with STATUS_ACCEPTED (Some "bob")))
    by (vm_compute; reflexivity).
  split; [exact Hm|].
  apply (accepted_is_terminal env0 _ st_accepted id0 _);
    [repeat constructor | exact Hm | reflexivity].
Defined.

Lemma immutable_fields_preserved_witness :
  Forall (fun o => is_create o = false)
    [ OpReject id0 "bob" "not yet"; OpResubmit id0 "again" "alice" change_bye ]
  /\ match suggestion_store st_in_review !! id0 with
     | None => True
     | Some m =>
         exists m',
           suggestion_store
             (run_ops env0 [ OpReject id0 "bob" "not yet";
                             OpResubmit id0 "again" "alice" change_bye ]
                st_in_review) !! id0 = Some m'
           /\ m_author_id m' = m_author_id m
     end.
Proof.
  assert (Hops : Forall (fun o => is_create o = false)
            [ OpReject id0 "bob" "not yet";
              OpResubmit id0 "again" "alice" change_bye ])
    by (repeat constructor).
  split; [exact Hops|].
  pose proof (immutable_fields_preserved env0 _ st_in_review id0 Hops) as H.
  destruct (suggestion_store st_in_review !! id0) as [m|]; [|exact I].
  destruct H as (m' & Hm' & Heq). exists m'. split; [exact Hm'|].
  now injection Heq.
Defined.

Lemma db0_query_stored qs store im :
  im ∈ model_query_suggestions db0 qs store -> store !! fst im = Some (snd im).
Proof.
  unfold db0. cbn [model_query_suggestions]. intros H.
  apply list_elem_of_In, filter_In in H as [H _].
  apply list_elem_of_In in H. now apply elem_of_map_to_list'.
Defined.

Lemma auto_reject_question_suggestions_all_or_nothing_witness :
  suggestion_store st_one_accepted !! q1
  = Some (question_with STATUS_IN_REVIEW None)
  /\ exists id m,
       auto_reject_question_suggestions_for_skill_id env0 db0 "S" st_one_accepted
         = (Raise (AlreadyHandledExn id), st_one_accepted)
       /\ suggestion_store st_one_accepted !! id = Some m
       /\ m_status m <> STATUS_IN_REVIEW.
Proof.
  split; [vm_compute; reflexivity|].
  apply (proj1 (proj2 (auto_reject_question_suggestions_all_or_nothing env0 db0
                         "S" st_one_accepted))).
  - intros im. apply db0_query_stored.
  - apply Exists_exists. exists (q0, question_with STATUS_ACCEPTED (Some "bob")).
    split; [|discriminate].
    unfold db0. cbn [model_query_suggestions].
    apply (proj2 (list_elem_of_In _ _)), (proj2 (filter_In _ _ _)). split; [|vm_compute; reflexivity].
    apply (proj1 (list_elem_of_In _ _)), (proj2 (elem_of_map_to_list' _ _)). vm_compute. reflexivity.
Defined.

Lemma auto_reject_translation_suggestions_no_explorations_witness :
  INVALID_STORY_REJECT_TRANSLATION_SUGGESTIONS_MSG db0 <> ""
  /\ exists st',
       auto_reject_translation_suggestions_for_exp_ids env0 db0 [] st_in_review
         = (Ok tt, st')
       /\ suggestion_store st' = suggestion_store st_in_review
       /\ messages st' = messages st_in_review.
Proof.
  assert (H : INVALID_STORY_REJECT_TRANSLATION_SUGGESTIONS_MSG db0 <> "")
    by discriminate.
  split; [exact H|].
  apply (proj1 (auto_reject_translation_suggestions_no_explorations env0 db0
                  st_in_review) H).
Defined.

End MoreWitnesses.
